(** * enhanced_sumo_ev3: the control loop of the sumo robot

    A shallow embedding of [enhanced_sumo_ev3.py].  Python floats are read
    as exact rationals ([Q]): rounding, infinities and NaN are outside the
    model.  Sensor and clock reads are inputs of an iteration ([Env]);
    motor commands, sleeps, prints and the CSV file are recorded in the
    machine state, so that an iteration is a function one can evaluate.
    The ev3dev2 drivers are not part of the program: a call to the motors
    is recorded with its arguments and returns, except that
    [on_for_seconds] refuses a negative duration, as the driver does. *)

From Stdlib Require Import QArith Qabs Lqa List String Bool.
Import ListNotations.
Open Scope Q_scope.

(** ** Python conventions used by the source *)

Module Py.

(** [x < y] on numbers, as a boolean. *)
Definition ltb (x y : Q) : bool := negb (Qle_bool y x).

(** Truth value of a number: zero is false, everything else is true. *)
Definition truthy (x : Q) : bool := negb (Qeq_bool x 0).

(** [o and p(o)]: the right operand is evaluated only when [o] is true. *)
Definition and_then (o : option Q) (p : Q -> bool) : bool :=
  match o with
  | None => false
  | Some x => truthy x && p x
  end.

(** [max(a, b)] and [min(a, b)] of two arguments: the first one wins ties. *)
Definition max (a b : Q) : Q := if ltb a b then b else a.
Definition min (a b : Q) : Q := if ltb b a then b else a.

End Py.

(** ** Configuration constants *)

Definition BASE_SPEED_SEARCH : Q := 20.
Definition BASE_SPEED_APPROACH : Q := 30.
Definition BASE_SPEED_PUSH : Q := 85.
Definition REFLECT_WHITE_THRESHOLD : Q := 40.
Definition US_DETECT_CM : Q := 25.
Definition US_PUSH_CM : Q := 7.
Definition KP : Q := 1.2.
Definition KI : Q := 0.01.
Definition KD : Q := 0.08.
Definition PID_LIMIT : Q := 40.
Definition PUSH_MAX_TIME : Q := 2.0.
Definition EDGE_BACKUP_TIME : Q := 0.5.
Definition EDGE_ROTATE_TIME : Q := 0.6.

(** ** class PID *)

Record PID := {
  kp : Q;
  ki : Q;
  kd : Q;
  limit : option Q;
  _prev : Q;
  _int : Q;
  _last : option Q
}.

(** [PID.__init__] *)
Definition PID_init (kp ki kd : Q) (limit : option Q) : PID :=
  {| kp := kp; ki := ki; kd := kd; limit := limit;
     _prev := 0; _int := 0; _last := None |}.

(** [PID.reset] *)
Definition reset (self : PID) : PID :=
  {| kp := kp self; ki := ki self; kd := kd self; limit := limit self;
     _prev := 0; _int := 0; _last := None |}.

(** The time step [dt] of [PID.compute] when the clock reads [now]. *)
Definition compute_dt (self : PID) (now : Q) : Q :=
  match _last self with
  | None => 0.01
  | Some last => Py.max 0.001 (now - last)
  end.

(** The two [if] statements that clamp the output. *)
Definition clamp_limit (limit : option Q) (out : Q) : Q :=
  match limit with
  | None => out
  | Some lim =>
      let out := if Py.ltb lim out then lim else out in
      if Py.ltb out (- lim) then - lim else out
  end.

(** [PID.compute]; [now] is what [time()] returns in the call.  The result
    is the returned output and the object after the call. *)
Definition compute (self : PID) (now error : Q) : Q * PID :=
  let dt := compute_dt self now in
  let int' := _int self + error * dt in
  let derivative := if Py.ltb 0 dt then (error - _prev self) / dt else 0 in
  let out := kp self * error + ki self * int' + kd self * derivative in
  (clamp_limit (limit self) out,
   {| kp := kp self; ki := ki self; kd := kd self; limit := limit self;
      _prev := error; _int := int'; _last := Some now |}).

(** One call [compute(error)] as it happened: the object before the call,
    the clock reading, the argument, the returned value and the object
    after the call. *)
Record Call := {
  call_before : PID;
  call_now : Q;
  call_error : Q;
  call_out : Q;
  call_after : PID
}.

(** A sequence of calls on one object, each given as (clock, error). *)
Fixpoint compute_all (self : PID) (calls : list (Q * Q)) : list Call :=
  match calls with
  | [] => []
  | (now, error) :: rest =>
      let result := compute self now error in
      {| call_before := self; call_now := now; call_error := error;
         call_out := fst result; call_after := snd result |}
      :: compute_all (snd result) rest
  end.

(** [pid = PID(KP,KI,KD,PID_LIMIT)] *)
Definition pid0 : PID := PID_init KP KI KD (Some PID_LIMIT).

(** The PID holds no history: the values [reset] writes. *)
Definition is_reset (p : PID) : Prop :=
  _int p = 0 /\ _prev p = 0 /\ _last p = None.

(** ** Drive mixer *)

(** [max(-100, min(100, x))] *)
Definition clamp100 (x : Q) : Q := Py.max (-100) (Py.min 100 x).

(** The pair [drive] computes and returns. *)
Definition drive_speeds (base left_correction : Q) : Q * Q :=
  let left := base - left_correction in
  let right := base + left_correction in
  (clamp100 left, clamp100 right).

(** ** The machine: loop variables, the PID object and the outside world *)

Inductive State := SEARCH | LOCKON | APPROACH | PUSH | RECOVER.

(** What the program does to the outside world, in the order it does it. *)
Inductive Action :=
| TankOn (left right : Q)                      (* tank.on *)
| TankOnForSeconds (left right seconds : Q)    (* tank.on_for_seconds, block=True *)
| TankStop                                     (* tank.stop *)
| Sleep (seconds : Q)
| Print (msg : string).

(** The list handed to [log_row] at the end of an iteration. *)
Record Row := {
  row_timestamp : string;
  row_state : State;
  row_us_l : option Q;
  row_us_r : option Q;
  row_cs_left : Q;
  row_cs_right : Q;
  row_error : Q;
  row_pid_out : Q;
  row_left_speed : Q;
  row_right_speed : Q
}.

Inductive CsvLine := Header | Data (r : Row).

Record Machine := {
  state : State;
  pid : PID;
  push_start : option Q;
  actions : list Action;              (* oldest first *)
  log_file : option (list CsvLine)    (* [None]: the file does not exist *)
}.

(** Everything one iteration reads from the sensors, the clock and the
    file system, one field per read in the source. *)
Record Env := {
  edge_cs_left : Q;        (* read_reflectance(cs_left) in edge_detected *)
  edge_cs_right : Q;       (* read_reflectance(cs_right) in edge_detected *)
  turn_cs_left : Q;        (* the second read, after reverse() *)
  turn_cs_right : Q;
  us_left : option Q;      (* us_distance_cm(us_left) *)
  us_right : option Q;     (* us_distance_cm(us_right) *)
  time_compute : Q;        (* time() in pid.compute *)
  time_push_start : Q;     (* time() when PUSH is entered *)
  time_push_check : Q;     (* time() in the push timeout test *)
  log_cs_left : Q;         (* the reads in the log row *)
  log_cs_right : Q;
  log_open_fails : bool    (* open(path, 'a') raises *)
}.

Inductive Exn :=
| NameError (name : string)
| ValueError
| OSError.

Inductive Result (A : Type) :=
| Ok (a : A)
| Raise (e : Exn).
Arguments Ok {A} a.
Arguments Raise {A} e.

(** Computations of the program: they change the machine and return a
    value or raise.  The machine at the point of a raise is kept. *)
Definition M (A : Type) : Type := Machine -> Result A * Machine.

Definition ret {A} (a : A) : M A := fun m => (Ok a, m).

Definition bind {A B} (c : M A) (k : A -> M B) : M B :=
  fun m =>
    match c m with
    | (Ok a, m') => k a m'
    | (Raise e, m') => (Raise e, m')
    end.

Definition raise {A} (e : Exn) : M A := fun m => (Raise e, m).

(** [try: body  except Exception as e: handler(e)] *)
Definition try_except {A} (body : M A) (handler : Exn -> M A) : M A :=
  fun m =>
    match body m with
    | (Ok a, m') => (Ok a, m')
    | (Raise e, m') => handler e m'
    end.

Declare Scope sumo_scope.
Delimit Scope sumo_scope with sumo.
Notation "x <- c ;; k" := (bind c (fun x => k))
  (at level 61, c at next level, right associativity) : sumo_scope.
Notation "c ;; k" := (bind c (fun _ => k))
  (at level 61, right associativity) : sumo_scope.
Open Scope sumo_scope.

Definition emit (a : Action) : M unit :=
  fun m => (Ok tt, {| state := state m; pid := pid m; push_start := push_start m;
                      actions := actions m ++ [a]; log_file := log_file m |}).

Definition get_state : M State := fun m => (Ok (state m), m).

Definition set_state (s : State) : M unit :=
  fun m => (Ok tt, {| state := s; pid := pid m; push_start := push_start m;
                      actions := actions m; log_file := log_file m |}).

Definition get_push_start : M (option Q) := fun m => (Ok (push_start m), m).

Definition set_push_start (t : option Q) : M unit :=
  fun m => (Ok tt, {| state := state m; pid := pid m; push_start := t;
                      actions := actions m; log_file := log_file m |}).

(** [pid.reset()] and [pid.compute(error)] on the module's PID object. *)
Definition pid_reset : M unit :=
  fun m => (Ok tt, {| state := state m; pid := reset (pid m); push_start := push_start m;
                      actions := actions m; log_file := log_file m |}).

Definition pid_compute (now error : Q) : M Q :=
  fun m =>
    let '(out, p) := compute (pid m) now error in
    (Ok out, {| state := state m; pid := p; push_start := push_start m;
                actions := actions m; log_file := log_file m |}).

Definition get_log_file : M (option (list CsvLine)) := fun m => (Ok (log_file m), m).

Definition set_log_file (f : option (list CsvLine)) : M unit :=
  fun m => (Ok tt, {| state := state m; pid := pid m; push_start := push_start m;
                      actions := actions m; log_file := f |}).

Definition print (msg : string) : M unit := emit (Print msg).
Definition sleep (seconds : Q) : M unit := emit (Sleep seconds).

(** ** The functions of the module *)

(** [edge_detected], on the two reflectances it reads. *)
Definition edge_detected (env : Env) : bool :=
  Qle_bool REFLECT_WHITE_THRESHOLD (edge_cs_left env)
  || Qle_bool REFLECT_WHITE_THRESHOLD (edge_cs_right env).

Definition stop : M unit := emit TankStop.

(** [tank.on_for_seconds(SpeedPercent(l), SpeedPercent(r), seconds, block=True)].
    The driver checks the duration first: [MoveTank.on_for_seconds] raises
    [ValueError] when [seconds < 0], before it commands either motor. *)
Definition tank_on_for_seconds (left right seconds : Q) : M unit :=
  if Py.ltb seconds 0 then raise ValueError
  else emit (TankOnForSeconds left right seconds).

(** [drive]: the command goes to the motors and the pair is returned. *)
Definition drive (base left_correction : Q) : M (Q * Q) :=
  let cmd := drive_speeds base left_correction in
  emit (TankOn (fst cmd) (snd cmd)) ;;
  ret cmd.

(** [reverse(sec, power)]; the defaults are [-EDGE_BACKUP_TIME] and [-30]. *)
Definition reverse (sec power : Q) : M unit :=
  tank_on_for_seconds power power sec ;;
  emit TankStop.

(** [rotate(left_speed, right_speed, seconds)]; the defaults are [30],
    [-30] and [EDGE_ROTATE_TIME]. *)
Definition rotate (left_speed right_speed seconds : Q) : M unit :=
  tank_on_for_seconds left_speed right_speed seconds ;;
  emit TankStop.

(** The wheel speeds of the rotation after an edge, from the reflectances
    [l] and [r] read after the reverse: [if l>r] ... [else] ... *)
Definition edge_rotation (l r : Q) : Q * Q :=
  if Py.ltb r l then (-30, 30) else (30, -30).

(** The body of [if edge_detected():], up to its [continue].  [reverse()]
    is called with its defaults, so with the duration [-EDGE_BACKUP_TIME]. *)
Definition edge_recovery (env : Env) : M unit :=
  print "EDGE! recovering..." ;;
  stop ;;
  reverse (- EDGE_BACKUP_TIME) (-30) ;;
  let speeds := edge_rotation (turn_cs_left env) (turn_cs_right env) in
  rotate (fst speeds) (snd speeds) EDGE_ROTATE_TIME ;;
  set_state SEARCH ;;
  pid_reset.

(** [us_l and us_r]: when it is true, the two numbers. *)
Definition both (us_l us_r : option Q) : option (Q * Q) :=
  match us_l, us_r with
  | Some l, Some r => if Py.truthy l && Py.truthy r then Some (l, r) else None
  | _, _ => None
  end.

(** [us_center] as the loop sets it. *)
Definition center_distance (us_l us_r : option Q) : option Q :=
  match both us_l us_r with
  | Some (l, r) => Some ((l + r) / 2.0)
  | None => None
  end.

(** The test of SEARCH:
    [(us_l and us_l < US_DETECT_CM) or (us_r and us_r < US_DETECT_CM)] *)
Definition search_detects (us_l us_r : option Q) : bool :=
  Py.and_then us_l (fun d => Py.ltb d US_DETECT_CM)
  || Py.and_then us_r (fun d => Py.ltb d US_DETECT_CM).

(** The variables of an iteration that reach the log row. *)
Record Locals := {
  us_l : option Q;
  us_r : option Q;
  us_center : option Q;
  left_speed_cmd : Q;
  right_speed_cmd : Q;
  pid_out : Q;
  error : Q
}.

(** How the control part of an iteration ends: by [continue], or by
    reaching the logging lines with its variables. *)
Inductive Flow :=
| Continue
| Proceed (v : Locals).

Definition with_drive (v : Locals) (error pid_out left right : Q) : Locals :=
  {| us_l := us_l v; us_r := us_r v; us_center := us_center v;
     left_speed_cmd := left; right_speed_cmd := right;
     pid_out := pid_out; error := error |}.

(** [if state == STATE_SEARCH:] *)
Definition search_step (v : Locals) : M Flow :=
  emit (TankOn BASE_SPEED_SEARCH (- BASE_SPEED_SEARCH)) ;;
  if search_detects (us_l v) (us_r v) then
    stop ;; set_state LOCKON ;; pid_reset ;; sleep 0.05 ;; ret Continue
  else ret (Proceed v).

(** [elif state == STATE_LOCKON:] *)
Definition lockon_step (v : Locals) : M Flow :=
  match both (us_l v) (us_r v) with
  | Some (l, r) =>
      (if Py.ltb (Qabs (l - r)) 2.0 then set_state APPROACH
       else if Py.ltb l r then emit (TankOn 15 (-15))
       else emit (TankOn (-15) 15)) ;;
      ret (Proceed v)
  | None =>
      tank_on_for_seconds 15 15 0.25 ;;
      set_state SEARCH ;;
      ret (Proceed v)
  end.

(** The test
    [(us_center and us_center <= US_PUSH_CM) or (has_bumper and bumper.is_pressed)].
    Neither [has_bumper] nor [bumper] is assigned or imported anywhere in
    the module, so reaching the right operand looks up an unbound name. *)
Definition push_trigger (us_center : option Q) : M bool :=
  if Py.and_then us_center (fun c => Qle_bool c US_PUSH_CM) then ret true
  else raise (NameError "has_bumper").

(** The steering error of APPROACH. *)
Definition steering_error (l r : Q) : Q := (r - l) / Py.max 1.0 (r + l).

(** [elif state == STATE_APPROACH:] *)
Definition approach_step (env : Env) (v : Locals) : M Flow :=
  match both (us_l v) (us_r v) with
  | Some (l, r) =>
      let error := steering_error l r in
      pid_out <- pid_compute (time_compute env) error ;;
      cmd <- drive BASE_SPEED_APPROACH pid_out ;;
      trigger <- push_trigger (us_center v) ;;
      (if trigger then
         set_state PUSH ;;
         set_push_start (Some (time_push_start env)) ;;
         print "Entering PUSH"
       else ret tt) ;;
      ret (Proceed (with_drive v error pid_out (fst cmd) (snd cmd)))
  | None =>
      stop ;; set_state SEARCH ;; pid_reset ;;
      ret (Proceed v)
  end.

(** [elif state == STATE_PUSH:] *)
Definition push_step (env : Env) (v : Locals) : M Flow :=
  emit (TankOn BASE_SPEED_PUSH BASE_SPEED_PUSH) ;;
  started <- get_push_start ;;
  (if Py.and_then started
        (fun t => Py.ltb PUSH_MAX_TIME (time_push_check env - t)) then
     print "Push timeout - back off" ;;
     stop ;; reverse 0.4 (-40) ;; rotate 30 (-30) EDGE_ROTATE_TIME ;;
     set_state SEARCH ;; pid_reset
   else ret tt) ;;
  ret (Proceed v).

(** The loop body from the edge test to the end of the state branches. *)
Definition iter_control (env : Env) : M Flow :=
  if edge_detected env then
    edge_recovery env ;; ret Continue
  else
    let v := {| us_l := us_left env; us_r := us_right env;
                us_center := center_distance (us_left env) (us_right env);
                left_speed_cmd := 0; right_speed_cmd := 0;
                pid_out := 0; error := 0 |} in
    s <- get_state ;;
    match s with
    | SEARCH => search_step v
    | LOCKON => lockon_step v
    | APPROACH => approach_step env v
    | PUSH => push_step env v
    | RECOVER => ret (Proceed v)
    end.

(** [log_row]: [ensure_log_folder] swallows its own failure and changes
    nothing the model records; a failure of [open] is caught and printed. *)
Definition log_row (env : Env) (row : Row) : M unit :=
  file <- get_log_file ;;
  let write_header := match file with None => true | Some _ => false end in
  try_except
    ((if log_open_fails env then raise OSError else ret tt) ;;
     let old := match file with None => [] | Some lines => lines end in
     let head := if write_header then [Header] else [] in
     set_log_file (Some (old ++ head ++ [Data row])))
    (fun _ => print "Logging failed:").

(** [datetime.utcnow().isoformat()]: the module imports [sleep] and [time]
    from [time], and [csv] and [os]; the name [datetime] is bound nowhere,
    so evaluating it raises. *)
Definition utcnow_isoformat : M string := raise (NameError "datetime").

(** The last three lines of the loop body. *)
Definition iter_log (env : Env) (v : Locals) : M unit :=
  timestamp <- utcnow_isoformat ;;
  s <- get_state ;;
  log_row env {| row_timestamp := timestamp; row_state := s;
                 row_us_l := us_l v; row_us_r := us_r v;
                 row_cs_left := log_cs_left env; row_cs_right := log_cs_right env;
                 row_error := error v; row_pid_out := pid_out v;
                 row_left_speed := left_speed_cmd v;
                 row_right_speed := right_speed_cmd v |} ;;
  sleep 0.02.

(** One iteration of [while True:]. *)
Definition main_loop_iter (env : Env) : M unit :=
  flow <- iter_control env ;;
  match flow with
  | Continue => ret tt
  | Proceed v => iter_log env v
  end.

(** The machine when the loop is entered; [file] is the log file found. *)
Definition main_loop_start (file : option (list CsvLine)) : Machine :=
  {| state := SEARCH; pid := reset pid0; push_start := None;
     actions := [Print "Enhanced Sumo starting"]; log_file := file |}.

(** The first iterations of the loop, one per element of [envs]. *)
Fixpoint iterate (envs : list Env) : M unit :=
  match envs with
  | [] => ret tt
  | env :: rest => main_loop_iter env ;; iterate rest
  end.

Definition main_loop (file : option (list CsvLine)) (envs : list Env)
  : Result unit * Machine :=
  iterate envs (main_loop_start file).

(** The machines the loop can hold: from the start, after any control
    part and any logging part that ended without raising. *)
Inductive reachable : Machine -> Prop :=
| reach_start file : reachable (main_loop_start file)
| reach_control env m flow m' :
    reachable m -> iter_control env m = (Ok flow, m') -> reachable m'
| reach_log env v m m' :
    reachable m -> iter_log env v m = (Ok tt, m') -> reachable m'.

(** ** Predicates and sample inputs used in the statements *)

(** The time step of a call at clock [now] when the previous call, if
    there was one since the last reset, was at clock [last]: the default
    0.01 without a previous call, otherwise the elapsed time, and 0.001
    where that is smaller. *)
Definition time_step (last : option Q) (now dt : Q) : Prop :=
  match last with
  | None => dt == 0.01
  | Some t =>
      (now - t <= 0.001 -> dt == 0.001)
      /\ (0.001 <= now - t -> dt == now - t)
  end.

(** What a sequence of calls [(clock, error)] has to look like, for an
    object whose limit is [lim], whose integral is [int] before the first
    call and whose previous call was at [last].  The clock of a call is
    the [last] of the next one, and the integral a call leaves is the one
    the next call starts from. *)
Fixpoint calls_ok (lim int : Q) (last : option Q)
         (calls : list (Q * Q)) (trace : list Call) : Prop :=
  match calls, trace with
  | [], [] => True
  | (now, e) :: calls', c :: trace' =>
      call_now c = now /\ call_error c = e
      /\ - lim <= call_out c <= lim
      /\ (exists dt : Q,
            0 < dt /\ time_step last now dt
            /\ _int (call_after c) == int + e * dt)
      /\ calls_ok lim (_int (call_after c)) (Some now) calls' trace'
  | _, _ => False
  end.

(** A limit one can clamp to: none, or a bound that is not negative. *)
Definition limit_not_negative (limit : option Q) : Prop :=
  match limit with
  | None => True
  | Some lim => 0 <= lim
  end.

(** [out] is [raw] clamped to [limit]: [raw] itself without a limit or
    inside [[-lim, lim]], the nearer bound outside. *)
Definition clamped_to (limit : option Q) (raw out : Q) : Prop :=
  match limit with
  | None => out == raw
  | Some lim =>
      (- lim <= raw <= lim -> out == raw)
      /\ (lim < raw -> out == lim)
      /\ (raw < - lim -> out == - lim)
  end.

(** A PID with the module's gains and limit that has seen one call. *)
Definition pid_used : PID := snd (compute pid0 100 50).

(** What an iteration that sees an edge does before [reverse()] raises. *)
Definition edge_actions : list Action :=
  [Print "EDGE! recovering..."; TankStop].

(** A motor command that runs the wheels for a time: the reverse and the
    rotation of the recovery maneuver are such commands. *)
Definition timed_command (a : Action) : Prop :=
  match a with
  | TankOnForSeconds _ _ _ => True
  | _ => False
  end.

(** An iteration in APPROACH at 4 cm from the opponent, with the left
    sensor over the white line. *)
Definition env_edge_close : Env :=
  {| edge_cs_left := 50; edge_cs_right := 10;
     turn_cs_left := 50; turn_cs_right := 10;
     us_left := Some 4; us_right := Some 4;
     time_compute := 100; time_push_start := 100; time_push_check := 100;
     log_cs_left := 50; log_cs_right := 10; log_open_fails := false |}.

(** A machine in state [s] with a fresh PID, no push timer, no past
    commands and no log file. *)
Definition machine_in (s : State) : Machine :=
  {| state := s; pid := reset pid0; push_start := None;
     actions := []; log_file := None |}.

(** In SEARCH and in LOCKON the PID is as [reset] leaves it. *)
Definition quiescent (m : Machine) : Prop :=
  state m = SEARCH \/ state m = LOCKON -> is_reset (pid m).

(** An opponent 20 cm ahead of both sensors, on the dark surface. *)
Definition env_ahead : Env :=
  {| edge_cs_left := 5; edge_cs_right := 5;
     turn_cs_left := 5; turn_cs_right := 5;
     us_left := Some 20; us_right := Some 20;
     time_compute := 100; time_push_start := 100; time_push_check := 100;
     log_cs_left := 5; log_cs_right := 5; log_open_fails := false |}.

(** The machine after the first iteration has seen that opponent. *)
Definition machine_locked : Machine :=
  snd (iter_control env_ahead (main_loop_start None)).

(** The left sensor reads 0 cm, the right one 10 cm, on the dark surface. *)
Definition env_zero_left : Env :=
  {| edge_cs_left := 5; edge_cs_right := 5;
     turn_cs_left := 5; turn_cs_right := 5;
     us_left := Some 0; us_right := Some 10;
     time_compute := 100; time_push_start := 100; time_push_check := 100;
     log_cs_left := 5; log_cs_right := 5; log_open_fails := false |}.

(** The left sensor reads 0 cm, the right one nothing. *)
Definition env_zero_only : Env :=
  {| edge_cs_left := 5; edge_cs_right := 5;
     turn_cs_left := 5; turn_cs_right := 5;
     us_left := Some 0; us_right := None;
     time_compute := 100; time_push_start := 100; time_push_check := 100;
     log_cs_left := 5; log_cs_right := 5; log_open_fails := false |}.

(** Nothing in sight, on the dark surface. *)
Definition env_quiet : Env :=
  {| edge_cs_left := 5; edge_cs_right := 5;
     turn_cs_left := 5; turn_cs_right := 5;
     us_left := None; us_right := None;
     time_compute := 100; time_push_start := 100; time_push_check := 100;
     log_cs_left := 5; log_cs_right := 5; log_open_fails := false |}.

(** ** Predicates and sample inputs for the rest of the module *)

(** A reading that SEARCH takes for an opponent: a number, not zero,
    below the detection distance. *)
Definition in_detection_range (o : option Q) : Prop :=
  exists d : Q, o = Some d /\ ~ d == 0 /\ d < US_DETECT_CM.

(** A motor command whose two speeds are percentages in [[-100, 100]]. *)
Definition speeds_in_range (a : Action) : Prop :=
  match a with
  | TankOn l r => (-100 <= l <= 100) /\ (-100 <= r <= 100)
  | TankOnForSeconds l r _ => (-100 <= l <= 100) /\ (-100 <= r <= 100)
  | TankStop | Sleep _ | Print _ => True
  end.

(** The gains and the limit the module's PID is built with. *)
Definition configured (p : PID) : Prop :=
  kp p = KP /\ ki p = KI /\ kd p = KD /\ limit p = Some PID_LIMIT.

(** What the loop keeps true of its variables. *)
Definition loop_invariant (m : Machine) : Prop :=
  configured (pid m)
  /\ state m <> RECOVER
  /\ (state m = PUSH -> exists t : Q, push_start m = Some t).

(** The commands of the back-off after a push that lasted too long. *)
Definition backoff_actions : list Action :=
  [TankOn BASE_SPEED_PUSH BASE_SPEED_PUSH; Print "Push timeout - back off";
   TankStop; TankOnForSeconds (-40) (-40) 0.4; TankStop;
   TankOnForSeconds 30 (-30) EDGE_ROTATE_TIME; TankStop].

(** The variables of an iteration before any state branch has run. *)
Definition locals_of (env : Env) : Locals :=
  {| us_l := us_left env; us_r := us_right env;
     us_center := center_distance (us_left env) (us_right env);
     left_speed_cmd := 0; right_speed_cmd := 0; pid_out := 0; error := 0 |}.

(** Successive calls [log_row(row)], each with the file system it meets. *)
Fixpoint log_rows (calls : list (Env * Row)) : M unit :=
  match calls with
  | [] => ret tt
  | (env, row) :: rest => log_row env row ;; log_rows rest
  end.

(** The rows of the calls whose [open] succeeded, in order. *)
Definition written (calls : list (Env * Row)) : list Row :=
  map snd (filter (fun c => negb (log_open_fails (fst c))) calls).

(** The opponent 30 cm from the left sensor and 10 cm from the right one. *)
Definition env_right_closer : Env :=
  {| edge_cs_left := 5; edge_cs_right := 5;
     turn_cs_left := 5; turn_cs_right := 5;
     us_left := Some 30; us_right := Some 10;
     time_compute := 100; time_push_start := 100; time_push_check := 100;
     log_cs_left := 5; log_cs_right := 5; log_open_fails := false |}.

(** The left sensor reads nothing, the right one 30 cm. *)
Definition env_left_lost : Env :=
  {| edge_cs_left := 5; edge_cs_right := 5;
     turn_cs_left := 5; turn_cs_right := 5;
     us_left := None; us_right := Some 30;
     time_compute := 100; time_push_start := 100; time_push_check := 100;
     log_cs_left := 5; log_cs_right := 5; log_open_fails := false |}.

(** In contact with the opponent, three seconds after the clock read 100. *)
Definition env_pushing_late : Env :=
  {| edge_cs_left := 5; edge_cs_right := 5;
     turn_cs_left := 5; turn_cs_right := 5;
     us_left := Some 3; us_right := Some 3;
     time_compute := 103; time_push_start := 103; time_push_check := 103;
     log_cs_left := 5; log_cs_right := 5; log_open_fails := false |}.

(** A machine pushing since the clock read 100. *)
Definition machine_pushing : Machine :=
  {| state := PUSH; pid := reset pid0; push_start := Some 100;
     actions := []; log_file := None |}.

(** The machine after LOCKON has found the opponent of [env_ahead] aligned. *)
Definition machine_approaching : Machine :=
  snd (iter_control env_ahead machine_locked).

(** A row of the log, for the examples. *)
Definition sample_row (s : State) : Row :=
  {| row_timestamp := "t"; row_state := s; row_us_l := None; row_us_r := None;
     row_cs_left := 5; row_cs_right := 5; row_error := 0; row_pid_out := 0;
     row_left_speed := 0; row_right_speed := 0 |}.

(** An iteration in which the log file cannot be opened. *)
Definition env_disk_full : Env :=
  {| edge_cs_left := 5; edge_cs_right := 5;
     turn_cs_left := 5; turn_cs_right := 5;
     us_left := None; us_right := None;
     time_compute := 100; time_push_start := 100; time_push_check := 100;
     log_cs_left := 5; log_cs_right := 5; log_open_fails := true |}.

(** The machine after APPROACH has come close enough to push. *)
Definition machine_pushed : Machine :=
  snd (iter_control env_pushing_late machine_approaching).

(** The log file after [rows] have been appended to [file]: a file that
    did not exist starts with the header line. *)
Definition file_after (file : option (list CsvLine)) (rows : list Row)
  : option (list CsvLine) :=
  match rows with
  | [] => file
  | _ :: _ =>
      Some (match file with None => [Header] | Some lines => lines end
            ++ map Data rows)
  end.

(** * Properties *)

(** ** Order and clamping *)

Lemma ltb_lt (x y : Q) : Py.ltb x y = true <-> x < y.
Proof.
  unfold Py.ltb. rewrite negb_true_iff. split; intro H.
  - destruct (Qlt_le_dec x y) as [L | L]; [exact L|].
    apply Qle_bool_iff in L. congruence.
  - destruct (Qle_bool y x) eqn:E; [|reflexivity].
    apply Qle_bool_iff in E. lra.
Qed.

Lemma ltb_ge (x y : Q) : Py.ltb x y = false <-> y <= x.
Proof.
  unfold Py.ltb. rewrite negb_false_iff. apply Qle_bool_iff.
Qed.

(** Case analysis on a comparison, leaving the order fact in the context. *)
Ltac case_ltb x y :=
  let E := fresh "E" in
  destruct (Py.ltb x y) eqn:E;
  [apply ltb_lt in E | apply ltb_ge in E].

Lemma max_floor (a b : Q) : a <= Py.max a b.
Proof. unfold Py.max. case_ltb a b; lra. Qed.

Lemma max_cases (a b : Q) :
  (b <= a -> Py.max a b == a) /\ (a <= b -> Py.max a b == b).
Proof. unfold Py.max. case_ltb a b; split; intro; lra. Qed.

Lemma clamp100_cases (x : Q) :
  (-100 <= x <= 100 -> clamp100 x == x)
  /\ (100 < x -> clamp100 x == 100)
  /\ (x < -100 -> clamp100 x == -100).
Proof.
  unfold clamp100, Py.max, Py.min.
  case_ltb x 100.
  - case_ltb (-100) x; repeat split; intros; lra.
  - assert (T : Py.ltb (-100) 100 = true) by reflexivity.
    rewrite T. repeat split; intros; lra.
Qed.

Lemma clamp100_range (x : Q) : -100 <= clamp100 x <= 100.
Proof.
  destruct (clamp100_cases x) as (In & Hi & Lo).
  destruct (Qlt_le_dec 100 x) as [H | H]; [rewrite (Hi H); lra|].
  destruct (Qlt_le_dec x (-100)) as [L | L]; [rewrite (Lo L); lra|].
  rewrite In; lra.
Qed.

Lemma clamp_limit_range (lim out : Q) :
  0 <= lim -> - lim <= clamp_limit (Some lim) out <= lim.
Proof.
  intro P. unfold clamp_limit.
  case_ltb lim out.
  - case_ltb lim (- lim); lra.
  - case_ltb out (- lim); lra.
Qed.

Lemma clamp_limit_compat (limit : option Q) (x y : Q) :
  x == y -> clamp_limit limit x == clamp_limit limit y.
Proof.
  intro E. destruct limit as [lim|]; [|exact E].
  unfold clamp_limit.
  case_ltb lim x; case_ltb lim y; try lra; try reflexivity.
  case_ltb x (- lim); case_ltb y (- lim); lra.
Qed.

(** ** PID *)

Lemma compute_dt_positive (p : PID) (now : Q) : 0 < compute_dt p now.
Proof.
  unfold compute_dt. destruct (_last p) as [t|]; [|reflexivity].
  pose proof (max_floor 0.001 (now - t)). lra.
Qed.

Lemma compute_keeps_limit (p : PID) (now e : Q) :
  limit (snd (compute p now e)) = limit p.
Proof. reflexivity. Qed.

Lemma time_step_of_compute (p : PID) (now : Q) :
  time_step (_last p) now (compute_dt p now).
Proof.
  unfold time_step, compute_dt.
  destruct (_last p) as [t|]; [apply max_cases | reflexivity].
Qed.

Lemma compute_output_in_limit (p : PID) (lim now e : Q) :
  limit p = Some lim -> 0 <= lim ->
  - lim <= fst (compute p now e) <= lim.
Proof.
  intros L P. cbn [compute fst]. rewrite L. apply clamp_limit_range, P.
Qed.

(** C8: for every sequence of calls to [compute] on a PID whose limit is
    set (to a bound [lim >= 0]), every returned value lies in
    [[-lim, lim]], and every call adds [error * dt] to the integral the
    previous call left, where [dt] is strictly positive: [0.01] when there
    was no call since the last reset, otherwise the time elapsed since the
    previous call, floored at [0.001]. *)
Theorem compute_bounded_and_positive_dt (p : PID) (lim : Q) (calls : list (Q * Q)) :
  limit p = Some lim -> 0 <= lim ->
  calls_ok lim (_int p) (_last p) calls (compute_all p calls).
Proof.
  intros L P. revert p L.
  induction calls as [| [now e] rest IH]; intros p L; cbn [compute_all calls_ok].
  - exact I.
  - cbn [call_now call_error call_out call_after].
    split; [reflexivity|]. split; [reflexivity|].
    split; [apply compute_output_in_limit; assumption|].
    split.
    + exists (compute_dt p now).
      split; [apply compute_dt_positive|].
      split; [apply time_step_of_compute | reflexivity].
    + apply (IH (snd (compute p now e))).
      rewrite compute_keeps_limit. exact L.
Qed.

Lemma compute_bounded_and_positive_dt_witness :
  limit pid0 = Some PID_LIMIT /\ 0 <= PID_LIMIT
  /\ calls_ok PID_LIMIT (_int pid0) (_last pid0)
       [(100, 50); (100, 60); (100.5, -70)]
       (compute_all pid0 [(100, 50); (100, 60); (100.5, -70)]).
Proof.
  split; [reflexivity|]. split; [discriminate|].
  apply (compute_bounded_and_positive_dt pid0 PID_LIMIT
           [(100, 50); (100, 60); (100.5, -70)]).
  - reflexivity.
  - discriminate.
Defined.

Lemma clamp_limit_clamps (limit : option Q) (raw : Q) :
  limit_not_negative limit -> clamped_to limit raw (clamp_limit limit raw).
Proof.
  destruct limit as [lim|]; cbn [limit_not_negative clamped_to clamp_limit].
  - intro P. case_ltb lim raw.
    + case_ltb lim (- lim); repeat split; intros; lra.
    + case_ltb raw (- lim); repeat split; intros; lra.
  - intros _. reflexivity.
Qed.

Lemma clamped_to_compat (limit : option Q) (raw raw' out : Q) :
  raw == raw' -> clamped_to limit raw out -> clamped_to limit raw' out.
Proof.
  intro E. destruct limit as [lim|]; cbn [clamped_to].
  - intros (In & Hi & Lo). repeat split; intros.
    + rewrite <- E. apply In. lra.
    + apply Hi. lra.
    + apply Lo. lra.
  - intro H. rewrite H. exact E.
Qed.

(** C9: whatever the PID holds, [reset()] followed by [compute(e)] returns
    what [compute(e)] returns on a freshly constructed PID with the same
    gains and limit, whatever the two clocks read: the value
    [kp*e + ki*(e*0.01) + kd*(e - 0)/0.01] when there is no limit or the
    value is within [[-limit, limit]], [limit] when it is above and
    [-limit] when it is below (for a limit that is not negative). *)
Theorem reset_then_compute_is_fresh (p : PID) (now now' e : Q) :
  limit_not_negative (limit p) ->
  fst (compute (reset p) now e)
  = fst (compute (PID_init (kp p) (ki p) (kd p) (limit p)) now' e)
  /\ clamped_to (limit p)
       (kp p * e + ki p * (e * 0.01) + kd p * ((e - 0) / 0.01))
       (fst (compute (reset p) now e)).
Proof.
  intro P. split; [reflexivity|].
  cbn [compute reset fst compute_dt kp ki kd limit _prev _int _last].
  replace (Py.ltb 0 0.01) with true by reflexivity.
  apply (clamped_to_compat (limit p)
           (kp p * e + ki p * (0 + e * 0.01) + kd p * ((e - 0) / 0.01))).
  - ring.
  - apply clamp_limit_clamps, P.
Qed.

Lemma reset_then_compute_is_fresh_witness :
  limit_not_negative (limit pid_used)
  /\ fst (compute (reset pid_used) 200 50)
     = fst (compute (PID_init (kp pid_used) (ki pid_used) (kd pid_used)
                       (limit pid_used)) 300 50)
  /\ clamped_to (limit pid_used)
       (kp pid_used * 50 + ki pid_used * (50 * 0.01)
        + kd pid_used * ((50 - 0) / 0.01))
       (fst (compute (reset pid_used) 200 50)).
Proof.
  assert (P : limit_not_negative (limit pid_used)) by discriminate.
  split; [exact P|].
  exact (reset_then_compute_is_fresh pid_used 200 300 50 P).
Defined.

(** ** Drive mixer *)

Lemma drive_run (base c : Q) (m : Machine) :
  drive base c m
  = (Ok (drive_speeds base c),
     {| state := state m; pid := pid m; push_start := push_start m;
        actions := actions m
                   ++ [TankOn (fst (drive_speeds base c)) (snd (drive_speeds base c))];
        log_file := log_file m |}).
Proof. reflexivity. Qed.

(** C10: for a base speed in [[-100,100]] and a correction in
    [[-1000,1000]], [drive] returns (and commands) left = base - correction
    and right = base + correction, each clamped on its own to
    [[-100,100]]: both lie in that range, right - left is twice the
    correction when neither is clamped, and a side that is clamped sits at
    100 or -100. *)
Theorem drive_mixes_and_clamps (base c : Q) (m : Machine) :
  -100 <= base <= 100 -> -1000 <= c <= 1000 ->
  exists l r : Q,
    fst (drive base c m) = Ok (l, r)
    /\ actions (snd (drive base c m)) = actions m ++ [TankOn l r]
    /\ l = clamp100 (base - c) /\ r = clamp100 (base + c)
    /\ -100 <= l <= 100 /\ -100 <= r <= 100
    /\ (-100 <= base - c <= 100 -> l == base - c)
    /\ (-100 <= base + c <= 100 -> r == base + c)
    /\ (-100 <= base - c <= 100 -> -100 <= base + c <= 100 -> r - l == 2 * c)
    /\ (100 < base - c -> l == 100) /\ (base - c < -100 -> l == -100)
    /\ (100 < base + c -> r == 100) /\ (base + c < -100 -> r == -100).
Proof.
  intros _ _.
  exists (clamp100 (base - c)), (clamp100 (base + c)).
  rewrite drive_run. cbn [fst snd actions drive_speeds].
  destruct (clamp100_cases (base - c)) as (Lin & Lhi & Llo).
  destruct (clamp100_cases (base + c)) as (Rin & Rhi & Rlo).
  repeat split; try reflexivity; try apply clamp100_range; try assumption.
  intros A B. rewrite (Lin A), (Rin B). ring.
Qed.

Lemma drive_mixes_and_clamps_witness :
  (-100 <= 30 <= 100) /\ (-1000 <= 40 <= 1000)
  /\ exists l r : Q,
       fst (drive 30 40 (main_loop_start None)) = Ok (l, r)
       /\ actions (snd (drive 30 40 (main_loop_start None)))
          = actions (main_loop_start None) ++ [TankOn l r]
       /\ l = clamp100 (30 - 40) /\ r = clamp100 (30 + 40)
       /\ -100 <= l <= 100 /\ -100 <= r <= 100
       /\ (-100 <= 30 - 40 <= 100 -> l == 30 - 40)
       /\ (-100 <= 30 + 40 <= 100 -> r == 30 + 40)
       /\ (-100 <= 30 - 40 <= 100 -> -100 <= 30 + 40 <= 100 -> r - l == 2 * 40)
       /\ (100 < 30 - 40 -> l == 100) /\ (30 - 40 < -100 -> l == -100)
       /\ (100 < 30 + 40 -> r == 100) /\ (30 + 40 < -100 -> r == -100).
Proof.
  split; [lra|]. split; [lra|].
  apply (drive_mixes_and_clamps 30 40 (main_loop_start None)); lra.
Defined.

(** ** Running the loop body *)

(** Unfolds the monad and the small effectful helpers, leaving the
    arithmetic alone. *)
Ltac unfold_effects :=
  cbv [bind ret raise try_except emit get_state set_state get_push_start
       set_push_start pid_reset pid_compute get_log_file set_log_file
       print sleep stop tank_on_for_seconds reverse rotate drive
       push_trigger utcnow_isoformat].

(** Decides the driver's test [seconds < 0] where the duration is a constant. *)
Ltac settle_durations :=
  repeat match goal with
         | |- context [Py.ltb ?a 0] =>
             let v := eval vm_compute in (Py.ltb a 0) in
             match v with
             | true => change (Py.ltb a 0) with true
             | false => change (Py.ltb a 0) with false
             end
         end.

Ltac run :=
  unfold_effects;
  repeat (progress settle_durations; unfold_effects);
  cbn [state pid push_start actions log_file].

Lemma edge_detected_iff (env : Env) :
  edge_detected env = true
  <-> REFLECT_WHITE_THRESHOLD <= edge_cs_left env
      \/ REFLECT_WHITE_THRESHOLD <= edge_cs_right env.
Proof.
  unfold edge_detected. rewrite orb_true_iff, !Qle_bool_iff. reflexivity.
Qed.

Lemma reset_is_reset (p : PID) : is_reset (reset p).
Proof. repeat split. Qed.

(** An iteration that sees an edge prints, stops the motors and raises in
    [reverse()]: the default duration is negative. *)
Lemma edge_iteration (env : Env) (m : Machine) :
  edge_detected env = true ->
  main_loop_iter env m
  = (Raise ValueError,
     {| state := state m; pid := pid m; push_start := push_start m;
        actions := actions m ++ edge_actions; log_file := log_file m |}).
Proof.
  intro E. unfold main_loop_iter, iter_control, edge_recovery. rewrite E.
  run. unfold edge_actions. rewrite <- !app_assoc. reflexivity.
Qed.

(** C1 fails on the code: in every state, an iteration in which either
    reflectance is at or above the white threshold prints, stops the
    motors and then raises [ValueError]: [reverse()] passes its default
    duration [-EDGE_BACKUP_TIME], which is negative, to the driver.  The
    iteration does not reverse or rotate, the state is the one before
    (SEARCH only if it was SEARCH already), the PID is not reset, and the
    exception leaves the loop. *)
Theorem edge_tick_raises_in_reverse (env : Env) (m : Machine) :
  REFLECT_WHITE_THRESHOLD <= edge_cs_left env
  \/ REFLECT_WHITE_THRESHOLD <= edge_cs_right env ->
  main_loop_iter env m
  = (Raise ValueError,
     {| state := state m; pid := pid m; push_start := push_start m;
        actions := actions m ++ [Print "EDGE! recovering..."; TankStop];
        log_file := log_file m |})
  /\ forall rest : list Env,
       iterate (env :: rest) m = main_loop_iter env m.
Proof.
  intro E. apply edge_detected_iff in E.
  split; [apply edge_iteration, E|].
  intro rest. cbn [iterate]. unfold bind at 1.
  rewrite (edge_iteration env m E). reflexivity.
Qed.

Lemma edge_tick_raises_in_reverse_witness :
  (REFLECT_WHITE_THRESHOLD <= edge_cs_left env_edge_close
   \/ REFLECT_WHITE_THRESHOLD <= edge_cs_right env_edge_close)
  /\ state machine_locked = LOCKON
  /\ main_loop_iter env_edge_close machine_locked
     = (Raise ValueError,
        {| state := LOCKON; pid := pid machine_locked;
           push_start := push_start machine_locked;
           actions := actions machine_locked
                      ++ [Print "EDGE! recovering..."; TankStop];
           log_file := log_file machine_locked |}).
Proof.
  assert (H : REFLECT_WHITE_THRESHOLD <= edge_cs_left env_edge_close
              \/ REFLECT_WHITE_THRESHOLD <= edge_cs_right env_edge_close).
  { left. discriminate. }
  split; [exact H|]. split; [reflexivity|].
  exact (proj1 (edge_tick_raises_in_reverse env_edge_close machine_locked H)).
Defined.

(** C4 fails on the code: an iteration that sees an edge sends no timed
    motor command at all, so neither the reverse nor a rotation: it
    raises [ValueError] in [reverse()] and the state stays what it was.
    The choice it would go on to make is, besides, the opposite of the
    claimed one: with the left reflectance the higher, lines 164 to 167
    pick left wheel -30 and right wheel +30 (left backward, right
    forward), and left +30, right -30 in every other case. *)
Theorem edge_tick_sends_no_rotation (env : Env) (m : Machine) :
  edge_detected env = true ->
  fst (main_loop_iter env m) = Raise ValueError
  /\ state (snd (main_loop_iter env m)) = state m
  /\ (exists acts : list Action,
        actions (snd (main_loop_iter env m)) = actions m ++ acts
        /\ Forall (fun a => ~ timed_command a) acts)
  /\ (turn_cs_right env < turn_cs_left env ->
      edge_rotation (turn_cs_left env) (turn_cs_right env) = (-30, 30))
  /\ (turn_cs_left env <= turn_cs_right env ->
      edge_rotation (turn_cs_left env) (turn_cs_right env) = (30, -30)).
Proof.
  intro E. rewrite (edge_iteration env m E). cbn [fst snd state actions].
  split; [reflexivity|]. split; [reflexivity|]. split.
  - exists edge_actions. split; [reflexivity|].
    repeat constructor; intro T; exact T.
  - unfold edge_rotation.
    case_ltb (turn_cs_right env) (turn_cs_left env);
      split; intro; solve [reflexivity | lra].
Qed.

Lemma edge_tick_sends_no_rotation_witness :
  edge_detected env_edge_close = true
  /\ turn_cs_right env_edge_close < turn_cs_left env_edge_close
  /\ fst (main_loop_iter env_edge_close (main_loop_start None))
     = Raise ValueError
  /\ actions (snd (main_loop_iter env_edge_close (main_loop_start None)))
     = [Print "Enhanced Sumo starting"; Print "EDGE! recovering..."; TankStop]
  /\ edge_rotation (turn_cs_left env_edge_close) (turn_cs_right env_edge_close)
     = (-30, 30).
Proof.
  assert (Turn : turn_cs_right env_edge_close < turn_cs_left env_edge_close)
    by reflexivity.
  split; [reflexivity|]. split; [exact Turn|].
  destruct (edge_tick_sends_no_rotation env_edge_close (main_loop_start None)
              eq_refl) as (Raised & _ & _ & Left & _).
  split; [exact Raised|]. split; [reflexivity|].
  exact (Left Turn).
Defined.

(** ** The PID holds no history outside APPROACH and PUSH *)

Ltac conclude H :=
  injection H as <- <-; cbn [state pid push_start actions log_file] in *.

Lemma control_keeps_quiescent (env : Env) (m : Machine) (r : Result Flow) (m' : Machine) :
  quiescent m -> iter_control env m = (r, m') ->
  quiescent m'
  /\ (state m <> APPROACH -> state m' = APPROACH -> is_reset (pid m')).
Proof.
  unfold quiescent. intros Inv.
  unfold iter_control. destruct (edge_detected env).
  - unfold edge_recovery. run. intro H. conclude H.
    split; [exact Inv | intros A B; contradiction].
  - run. destruct (state m) eqn:S.
    + unfold search_step. destruct (search_detects _ _); run; intro H; conclude H.
      * split; intros; [apply reset_is_reset | discriminate].
      * split; intros; [apply Inv; now left | congruence].
    + unfold lockon_step. cbn [us_l us_r].
      destruct (both _ _) as [[l r']|].
      * destruct (Py.ltb (Qabs (l - r')) 2.0); [|destruct (Py.ltb l r')];
          run; intro H; conclude H;
          (split; intros; apply Inv; now right).
      * run. intro H. conclude H.
        split; intros; [apply Inv; now right | discriminate].
    + unfold approach_step. cbn [us_l us_r us_center].
      destruct (both _ _) as [[l r']|].
      * run. cbv [compute]. run.
        destruct (Py.and_then _ _); run; intro H; conclude H;
          (split; [intros [A | A]; congruence | intros A; now elim A]).
      * run. intro H. conclude H.
        split; intros; [apply reset_is_reset | discriminate].
    + unfold push_step. run.
      destruct (Py.and_then _ _); run; intro H; conclude H.
      * split; intros; [apply reset_is_reset | discriminate].
      * split; [intros [A | A]; congruence | intros; congruence].
    + intro H. conclude H.
      split; [intros [A | A]; congruence | intros; congruence].
Qed.

Lemma log_raises (env : Env) (v : Locals) (m : Machine) :
  iter_log env v m = (Raise (NameError "datetime"), m).
Proof. reflexivity. Qed.

Lemma reachable_quiescent (m : Machine) : reachable m -> quiescent m.
Proof.
  induction 1 as [file | env m flow m' _ IH Step | env v m m' _ IH Step].
  - intros _. apply reset_is_reset.
  - exact (proj1 (control_keeps_quiescent env m (Ok flow) m' IH Step)).
  - rewrite log_raises in Step. discriminate Step.
Qed.

Lemma iterate_reachable (envs : list Env) (m m' : Machine) :
  reachable m -> iterate envs m = (Ok tt, m') -> reachable m'.
Proof.
  revert m. induction envs as [| env rest IH]; intros m R Run.
  - injection Run as <-. exact R.
  - cbn [iterate] in Run. unfold bind at 1 in Run.
    destruct (main_loop_iter env m) as [[[] | e] m1] eqn:Iter; [|discriminate Run].
    apply (IH m1); [|exact Run].
    unfold main_loop_iter, bind in Iter.
    destruct (iter_control env m) as [[flow | e] m0] eqn:Ctl; [|discriminate Iter].
    pose proof (reach_control env m flow m0 R Ctl) as R0.
    destruct flow as [| v].
    + injection Iter as <-. exact R0.
    + exact (reach_log env v m0 m1 R0 Iter).
Qed.

(** Every machine the loop holds after some iterations is [reachable]. *)
Lemma main_loop_reachable (file : option (list CsvLine)) (envs : list Env) (m : Machine) :
  main_loop file envs = (Ok tt, m) -> reachable m.
Proof. apply iterate_reachable, reach_start. Qed.

Lemma truthy_iff (x : Q) : Py.truthy x = true <-> ~ x == 0.
Proof.
  unfold Py.truthy. rewrite negb_true_iff. split.
  - intros F E. apply Qeq_bool_iff in E. congruence.
  - intro N. destruct (Qeq_bool x 0) eqn:E; [|reflexivity].
    apply Qeq_bool_iff in E. contradiction.
Qed.

Lemma both_nonzero (l r : Q) :
  ~ l == 0 -> ~ r == 0 -> both (Some l) (Some r) = Some (l, r).
Proof.
  intros L R. unfold both.
  apply truthy_iff in L. apply truthy_iff in R. rewrite L, R. reflexivity.
Qed.

(** The LOCKON branch, when the two distances are within the tolerance. *)
Lemma lockon_aligned (env : Env) (m : Machine) (l r : Q) :
  edge_detected env = false -> state m = LOCKON ->
  us_left env = Some l -> us_right env = Some r ->
  ~ l == 0 -> ~ r == 0 -> Qabs (l - r) < 2.0 ->
  exists v : Locals,
    iter_control env m
    = (Ok (Proceed v),
       {| state := APPROACH; pid := pid m; push_start := push_start m;
          actions := actions m; log_file := log_file m |}).
Proof.
  intros E S L R Lnz Rnz Close.
  unfold iter_control. rewrite E. run. rewrite S.
  unfold lockon_step. cbn [us_l us_r]. rewrite L, R, (both_nonzero l r Lnz Rnz).
  apply ltb_lt in Close. rewrite Close. run.
  eexists. reflexivity.
Qed.

(** C7: in every run of the loop, the PID holds no history (integral 0,
    previous error 0, no last timestamp) whenever the control part of an
    iteration enters APPROACH and whenever it ends in SEARCH.  In
    particular LOCKON with both distances read and less than the
    tolerance apart enters APPROACH with the PID in that state: it was
    reset when LOCKON was entered and LOCKON never calls [compute]. *)
Theorem pid_reset_on_entry (env : Env) (m : Machine) (r : Result Flow) (m' : Machine) :
  reachable m -> iter_control env m = (r, m') ->
  (state m <> APPROACH -> state m' = APPROACH -> is_reset (pid m'))
  /\ (state m' = SEARCH -> is_reset (pid m'))
  /\ (forall dl dr : Q,
        edge_detected env = false -> state m = LOCKON ->
        us_left env = Some dl -> us_right env = Some dr ->
        ~ dl == 0 -> ~ dr == 0 -> Qabs (dl - dr) < 2.0 ->
        state m' = APPROACH /\ is_reset (pid m')).
Proof.
  intros R Step.
  pose proof (reachable_quiescent m R) as Inv.
  destruct (control_keeps_quiescent env m r m' Inv Step) as [Inv' Entry].
  split; [exact Entry|]. split.
  - intro S. apply Inv'. now left.
  - intros dl dr E S L Rd Lnz Rnz Close.
    destruct (lockon_aligned env m dl dr E S L Rd Lnz Rnz Close) as [v Run].
    rewrite Run in Step. injection Step as _ <-.
    cbn [state pid]. split; [reflexivity|].
    apply Inv. now right.
Qed.

Lemma pid_reset_on_entry_witness :
  reachable machine_locked
  /\ iter_control env_ahead machine_locked
     = (fst (iter_control env_ahead machine_locked),
        snd (iter_control env_ahead machine_locked))
  /\ state machine_locked = LOCKON
  /\ state (snd (iter_control env_ahead machine_locked)) = APPROACH
  /\ is_reset (pid (snd (iter_control env_ahead machine_locked))).
Proof.
  assert (R : reachable machine_locked).
  { apply (reach_control env_ahead (main_loop_start None) Continue).
    - apply reach_start.
    - reflexivity. }
  assert (Step : iter_control env_ahead machine_locked
                 = (fst (iter_control env_ahead machine_locked),
                    snd (iter_control env_ahead machine_locked))).
  { reflexivity. }
  split; [exact R|]. split; [exact Step|]. split; [reflexivity|].
  split; [reflexivity|].
  apply (proj1 (pid_reset_on_entry env_ahead machine_locked _ _ R Step)).
  - intro N. cbv in N. discriminate N.
  - reflexivity.
Defined.

(** ** The push trigger of APPROACH *)

Lemma center_of_both (a b : option Q) (l r : Q) :
  both a b = Some (l, r) -> center_distance a b = Some ((l + r) / 2.0).
Proof. unfold center_distance. intros ->. reflexivity. Qed.

(** Close enough: the left operand of the [or] decides, and PUSH is entered. *)
Lemma approach_close_pushes (env : Env) (m : Machine) (l r : Q) :
  edge_detected env = false -> state m = APPROACH ->
  both (us_left env) (us_right env) = Some (l, r) ->
  ~ (l + r) / 2.0 == 0 -> (l + r) / 2.0 <= US_PUSH_CM ->
  exists (v : Locals) (m' : Machine),
    iter_control env m = (Ok (Proceed v), m')
    /\ state m' = PUSH /\ push_start m' = Some (time_push_start env).
Proof.
  intros E S B Nz Close.
  unfold iter_control. rewrite E. run. rewrite S.
  unfold approach_step. cbn [us_l us_r us_center].
  rewrite (center_of_both _ _ l r B), B. run. cbv [compute]. run.
  unfold Py.and_then.
  apply truthy_iff in Nz. apply Qle_bool_iff in Close. rewrite Nz, Close.
  run. do 2 eexists. repeat split.
Qed.

(** Farther than the threshold: the right operand is evaluated, and the
    lookup of [has_bumper] raises, after the motors were commanded. *)
Lemma approach_far_raises (env : Env) (m : Machine) (l r : Q) :
  edge_detected env = false -> state m = APPROACH ->
  both (us_left env) (us_right env) = Some (l, r) ->
  US_PUSH_CM < (l + r) / 2.0 ->
  exists m' : Machine,
    iter_control env m = (Raise (NameError "has_bumper"), m')
    /\ state m' = APPROACH.
Proof.
  intros E S B Far.
  unfold iter_control. rewrite E. run. rewrite S.
  unfold approach_step. cbn [us_l us_r us_center].
  rewrite (center_of_both _ _ l r B), B. run. cbv [compute]. run.
  unfold Py.and_then.
  assert (F : Qle_bool ((l + r) / 2.0) US_PUSH_CM = false).
  { destruct (Qle_bool _ _) eqn:T; [|reflexivity].
    apply Qle_bool_iff in T. lra. }
  rewrite F, andb_false_r. run.
  eexists. split; [reflexivity | exact S].
Qed.

(** ** Zero readings *)

Lemma truthy_zero : Py.truthy 0 = false.
Proof. reflexivity. Qed.

Lemma zero_is_absent (r : option Q) :
  both (Some 0) r = None /\ both r (Some 0) = None
  /\ center_distance (Some 0) r = None /\ center_distance r (Some 0) = None.
Proof.
  unfold center_distance, both. destruct r as [x|]; [|repeat split].
  rewrite truthy_zero, andb_false_r. repeat split.
Qed.

(** C3 fails on the code: a reading of 0 cm is taken for no reading.  With
    0 cm on the left and 10 cm on the right there is no center distance
    (not 5 cm), and APPROACH gives up the lock and goes to SEARCH, as
    LOCKON does after its forward nudge; with 0 cm on the left alone,
    SEARCH does not detect the opponent and stays in SEARCH. *)
Theorem zero_reading_taken_for_absent :
  center_distance (Some 0) (Some 10) = None
  /\ search_detects (Some 0) None = false
  /\ state (snd (iter_control env_zero_left (machine_in APPROACH))) = SEARCH
  /\ actions (snd (iter_control env_zero_left (machine_in APPROACH))) = [TankStop]
  /\ state (snd (iter_control env_zero_left (machine_in LOCKON))) = SEARCH
  /\ state (snd (iter_control env_zero_only (machine_in SEARCH))) = SEARCH.
Proof. repeat split. Qed.

(** ** Logging *)

(** A failure of the file write is caught inside [log_row]: the call
    returns, and the loop variables and the PID are as before. *)
Lemma log_row_never_raises (env : Env) (row : Row) (m : Machine) :
  exists m' : Machine,
    log_row env row m = (Ok tt, m')
    /\ state m' = state m /\ pid m' = pid m /\ push_start m' = push_start m
    /\ (log_open_fails env = true ->
        log_file m' = log_file m
        /\ actions m' = actions m ++ [Print "Logging failed:"]).
Proof.
  unfold log_row. destruct (log_open_fails env); run;
    eexists; repeat split; discriminate.
Qed.

(** The control part never touches the log file. *)
Lemma control_keeps_log_file (env : Env) (m : Machine) (r : Result Flow) (m' : Machine) :
  iter_control env m = (r, m') -> log_file m' = log_file m.
Proof.
  unfold iter_control. destruct (edge_detected env).
  - unfold edge_recovery. run. intro H. conclude H. reflexivity.
  - run. destruct (state m).
    + unfold search_step. destruct (search_detects _ _); run;
        intro H; conclude H; reflexivity.
    + unfold lockon_step. destruct (both _ _) as [[l r']|].
      * destruct (Py.ltb (Qabs (l - r')) 2.0); [|destruct (Py.ltb l r')];
          run; intro H; conclude H; reflexivity.
      * run. intro H. conclude H. reflexivity.
    + unfold approach_step. destruct (both _ _) as [[l r']|].
      * run. cbv [compute]. run.
        destruct (Py.and_then _ _); run; intro H; conclude H; reflexivity.
      * run. intro H. conclude H. reflexivity.
    + unfold push_step. run.
      destruct (Py.and_then _ _); run; intro H; conclude H; reflexivity.
    + intro H. conclude H. reflexivity.
Qed.

(** No iteration adds a line to the log file: an iteration either leaves
    by [continue] or raises while building the timestamp. *)
Lemma iteration_writes_nothing (env : Env) (m : Machine) :
  log_file (snd (main_loop_iter env m)) = log_file m.
Proof.
  unfold main_loop_iter, bind.
  destruct (iter_control env m) as [[flow | e] m1] eqn:Ctl;
    pose proof (control_keeps_log_file env m _ m1 Ctl) as Keep.
  - destruct flow as [| v]; [exact Keep|].
    rewrite log_raises. exact Keep.
  - exact Keep.
Qed.

(** An iteration whose control part reaches the logging lines raises. *)
Lemma iteration_raises_at_timestamp (env : Env) (m : Machine) (v : Locals) (m1 : Machine) :
  iter_control env m = (Ok (Proceed v), m1) ->
  main_loop_iter env m = (Raise (NameError "datetime"), m1).
Proof.
  intro Ctl. unfold main_loop_iter, bind. rewrite Ctl. apply log_raises.
Qed.

(** C5 fails on the code: building the timestamp of the log row raises
    [NameError] for [datetime], outside the [try] of [log_row].  Already
    the first iteration of a run that sees nothing raises; the exception
    leaves the loop, no further iteration runs, and the motors keep the
    last command, the search spin. *)
Theorem timestamp_failure_leaves_the_loop :
  main_loop_iter env_quiet (main_loop_start None)
  = (Raise (NameError "datetime"),
     {| state := SEARCH; pid := reset pid0; push_start := None;
        actions := [Print "Enhanced Sumo starting";
                    TankOn BASE_SPEED_SEARCH (- BASE_SPEED_SEARCH)];
        log_file := None |})
  /\ main_loop None [env_quiet; env_ahead; env_quiet]
     = main_loop_iter env_quiet (main_loop_start None).
Proof. split; reflexivity. Qed.

(** C6 fails on the code: not every iteration writes a row.  The
    iteration in which SEARCH detects the opponent ends by [continue]
    before the logging lines: it completes, and the log file is as
    before.  An iteration in which the edge override fires writes no row
    either: it raises in [reverse()], with the log file as before. *)
Theorem edge_iteration_writes_no_row :
  main_loop (Some [Header]) [env_ahead]
  = (Ok tt,
     {| state := LOCKON; pid := reset (reset pid0); push_start := None;
        actions := [Print "Enhanced Sumo starting";
                    TankOn BASE_SPEED_SEARCH (- BASE_SPEED_SEARCH);
                    TankStop; Sleep 0.05];
        log_file := Some [Header] |})
  /\ main_loop (Some [Header]) [env_edge_close]
     = (Raise ValueError,
        {| state := SEARCH; pid := reset pid0; push_start := None;
           actions := [Print "Enhanced Sumo starting";
                       Print "EDGE! recovering..."; TankStop];
           log_file := Some [Header] |}).
Proof. split; reflexivity. Qed.

(** * The rest of the loop *)

(** ** Presence tests *)

Lemma both_some_iff (a b : option Q) (l r : Q) :
  both a b = Some (l, r)
  <-> a = Some l /\ b = Some r /\ ~ l == 0 /\ ~ r == 0.
Proof.
  unfold both. split.
  - destruct a as [x|]; [|discriminate]. destruct b as [y|]; [|discriminate].
    destruct (Py.truthy x) eqn:Tx; [|discriminate].
    destruct (Py.truthy y) eqn:Ty; [|discriminate].
    cbn. intro H. injection H as <- <-.
    repeat split; apply truthy_iff; assumption.
  - intros (-> & -> & L & R).
    apply truthy_iff in L. apply truthy_iff in R. rewrite L, R. reflexivity.
Qed.

Lemma and_then_iff (o : option Q) (p : Q -> bool) :
  Py.and_then o p = true <-> exists d : Q, o = Some d /\ ~ d == 0 /\ p d = true.
Proof.
  unfold Py.and_then. split.
  - destruct o as [d|]; [|discriminate].
    intro H. apply andb_true_iff in H. destruct H as [T P].
    exists d. repeat split; [apply truthy_iff, T | exact P].
  - intros (d & -> & N & P). apply truthy_iff in N. rewrite N, P. reflexivity.
Qed.

Lemma search_detects_iff (a b : option Q) :
  search_detects a b = true <-> in_detection_range a \/ in_detection_range b.
Proof.
  unfold search_detects, in_detection_range.
  rewrite orb_true_iff, !and_then_iff.
  split; (intros [(d & E & N & L) | (d & E & N & L)]; [left | right]);
    exists d; repeat split; try assumption; apply ltb_lt; assumption.
Qed.

(** ** SEARCH *)

(** X1: with no edge, SEARCH commands the spin (20, -20).  When either
    distance is a non-zero number below 25 cm it stops the motors, goes to
    LOCKON, resets the PID, sleeps 0.05 s and ends the iteration there;
    otherwise it stays in SEARCH with the motors spinning and goes on to
    the logging lines with zero error, output and speed commands. *)
Theorem search_iteration (env : Env) (m : Machine) :
  edge_detected env = false -> state m = SEARCH ->
  (in_detection_range (us_left env) \/ in_detection_range (us_right env) ->
   main_loop_iter env m
   = (Ok tt,
      {| state := LOCKON; pid := reset (pid m); push_start := push_start m;
         actions := actions m
                    ++ [TankOn BASE_SPEED_SEARCH (- BASE_SPEED_SEARCH);
                        TankStop; Sleep 0.05];
         log_file := log_file m |}))
  /\ (~ (in_detection_range (us_left env) \/ in_detection_range (us_right env)) ->
      iter_control env m
      = (Ok (Proceed (locals_of env)),
         {| state := state m; pid := pid m; push_start := push_start m;
            actions := actions m
                       ++ [TankOn BASE_SPEED_SEARCH (- BASE_SPEED_SEARCH)];
            log_file := log_file m |})).
Proof.
  intros E S. split; intro D.
  - apply search_detects_iff in D.
    unfold main_loop_iter, iter_control. rewrite E. run. rewrite S.
    unfold search_step. cbn [us_l us_r]. rewrite D. run.
    rewrite <- !app_assoc. reflexivity.
  - assert (F : search_detects (us_left env) (us_right env) = false).
    { destruct (search_detects _ _) eqn:T; [|reflexivity].
      apply search_detects_iff in T. contradiction. }
    unfold iter_control. rewrite E. run. rewrite S.
    unfold search_step. cbn [us_l us_r]. rewrite F. run.
    rewrite S. reflexivity.
Qed.

Lemma search_iteration_witness :
  edge_detected env_ahead = false
  /\ state (main_loop_start None) = SEARCH
  /\ (in_detection_range (us_left env_ahead)
      \/ in_detection_range (us_right env_ahead))
  /\ state (snd (main_loop_iter env_ahead (main_loop_start None))) = LOCKON.
Proof.
  assert (D : in_detection_range (us_left env_ahead)
              \/ in_detection_range (us_right env_ahead)).
  { left. exists 20. repeat split; discriminate. }
  split; [reflexivity|]. split; [reflexivity|]. split; [exact D|].
  rewrite (proj1 (search_iteration env_ahead (main_loop_start None)
                    eq_refl eq_refl) D).
  reflexivity.
Defined.

(** ** LOCKON *)

(** X2: with no edge, LOCKON with two present readings at least 2 cm apart
    turns on the spot, (15, -15) when the left reading is the smaller and
    (-15, 15) otherwise, and stays in LOCKON; when a reading is missing or
    zero it drives forward at (15, 15) for 0.25 s and goes back to SEARCH.
    The PID and the push timer are not touched. *)
Theorem lockon_iteration (env : Env) (m : Machine) :
  edge_detected env = false -> state m = LOCKON ->
  (forall l r : Q,
     both (us_left env) (us_right env) = Some (l, r) ->
     2.0 <= Qabs (l - r) ->
     iter_control env m
     = (Ok (Proceed (locals_of env)),
        {| state := LOCKON; pid := pid m; push_start := push_start m;
           actions := actions m
                      ++ [if Py.ltb l r then TankOn 15 (-15) else TankOn (-15) 15];
           log_file := log_file m |}))
  /\ (both (us_left env) (us_right env) = None ->
      iter_control env m
      = (Ok (Proceed (locals_of env)),
         {| state := SEARCH; pid := pid m; push_start := push_start m;
            actions := actions m ++ [TankOnForSeconds 15 15 0.25];
            log_file := log_file m |})).
Proof.
  intros E S. split.
  - intros l r B Far. apply ltb_ge in Far.
    unfold iter_control. rewrite E. run. rewrite S.
    unfold lockon_step. cbn [us_l us_r]. rewrite B, Far.
    destruct (Py.ltb l r); run; rewrite S; reflexivity.
  - intro B.
    unfold iter_control. rewrite E. run. rewrite S.
    unfold lockon_step. cbn [us_l us_r]. rewrite B. run. reflexivity.
Qed.

Lemma lockon_iteration_witness :
  edge_detected env_right_closer = false
  /\ state machine_locked = LOCKON
  /\ both (us_left env_right_closer) (us_right env_right_closer) = Some (30, 10)
  /\ 2.0 <= Qabs (30 - 10)
  /\ actions (snd (iter_control env_right_closer machine_locked))
     = actions machine_locked ++ [TankOn (-15) 15].
Proof.
  split; [reflexivity|]. split; [reflexivity|]. split; [reflexivity|].
  split; [discriminate|].
  rewrite (proj1 (lockon_iteration env_right_closer machine_locked
                    eq_refl eq_refl) 30 10 eq_refl).
  - reflexivity.
  - discriminate.
Defined.

(** ** APPROACH without both readings *)

(** X3: with no edge, APPROACH with a reading missing or zero stops the
    motors, goes to SEARCH and resets the PID; the push timer stays as it
    was, and the iteration goes on to the logging lines with zero error,
    output and speed commands. *)
Theorem approach_lost_lock (env : Env) (m : Machine) :
  edge_detected env = false -> state m = APPROACH ->
  both (us_left env) (us_right env) = None ->
  iter_control env m
  = (Ok (Proceed (locals_of env)),
     {| state := SEARCH; pid := reset (pid m); push_start := push_start m;
        actions := actions m ++ [TankStop]; log_file := log_file m |}).
Proof.
  intros E S B.
  unfold iter_control. rewrite E. run. rewrite S.
  unfold approach_step. cbn [us_l us_r]. rewrite B. run. reflexivity.
Qed.

Lemma approach_lost_lock_witness :
  edge_detected env_left_lost = false
  /\ state (machine_in APPROACH) = APPROACH
  /\ both (us_left env_left_lost) (us_right env_left_lost) = None
  /\ iter_control env_left_lost (machine_in APPROACH)
     = (Ok (Proceed (locals_of env_left_lost)),
        {| state := SEARCH; pid := reset (pid (machine_in APPROACH));
           push_start := push_start (machine_in APPROACH);
           actions := actions (machine_in APPROACH) ++ [TankStop];
           log_file := log_file (machine_in APPROACH) |}).
Proof.
  split; [reflexivity|]. split; [reflexivity|]. split; [reflexivity|].
  apply (approach_lost_lock env_left_lost (machine_in APPROACH)); reflexivity.
Defined.

(** ** PUSH *)

(** X7: with no edge, PUSH commands (85, 85).  With a push start time [t]
    that is not zero, it backs off only once the clock is strictly more
    than 2 s past [t]: it stops, reverses at -40 for 0.4 s, rotates
    (30, -30) for 0.6 s, goes to SEARCH and resets the PID, keeping the
    start time; up to and including 2 s it stays in PUSH and changes
    nothing else. *)
Theorem push_iteration (env : Env) (m : Machine) (t : Q) :
  edge_detected env = false -> state m = PUSH ->
  push_start m = Some t -> ~ t == 0 ->
  (PUSH_MAX_TIME < time_push_check env - t ->
   iter_control env m
   = (Ok (Proceed (locals_of env)),
      {| state := SEARCH; pid := reset (pid m); push_start := Some t;
         actions := actions m ++ backoff_actions; log_file := log_file m |}))
  /\ (time_push_check env - t <= PUSH_MAX_TIME ->
      iter_control env m
      = (Ok (Proceed (locals_of env)),
         {| state := PUSH; pid := pid m; push_start := Some t;
            actions := actions m ++ [TankOn BASE_SPEED_PUSH BASE_SPEED_PUSH];
            log_file := log_file m |})).
Proof.
  intros E S P N. apply truthy_iff in N.
  split; intro T.
  - apply ltb_lt in T.
    unfold iter_control. rewrite E. run. rewrite S.
    unfold push_step. run. rewrite P. unfold Py.and_then. rewrite N, T.
    cbn [andb]. run.
    unfold backoff_actions. rewrite <- !app_assoc. reflexivity.
  - apply ltb_ge in T.
    unfold iter_control. rewrite E. run. rewrite S.
    unfold push_step. run. rewrite P. unfold Py.and_then. rewrite N, T.
    cbn [andb]. run.
    rewrite S. reflexivity.
Qed.

Lemma push_iteration_witness :
  edge_detected env_pushing_late = false
  /\ state machine_pushing = PUSH
  /\ push_start machine_pushing = Some 100
  /\ ~ 100 == 0
  /\ PUSH_MAX_TIME < time_push_check env_pushing_late - 100
  /\ state (snd (iter_control env_pushing_late machine_pushing)) = SEARCH.
Proof.
  assert (N : ~ 100 == 0) by discriminate.
  assert (T : PUSH_MAX_TIME < time_push_check env_pushing_late - 100)
    by reflexivity.
  split; [reflexivity|]. split; [reflexivity|]. split; [reflexivity|].
  split; [exact N|]. split; [exact T|].
  rewrite (proj1 (push_iteration env_pushing_late machine_pushing 100
                    eq_refl eq_refl eq_refl N) T).
  reflexivity.
Defined.

(** ** The steering error and the PID output *)

Lemma max_compat (a x y : Q) : x == y -> Py.max a x == Py.max a y.
Proof.
  intro E. unfold Py.max. case_ltb a x; case_ltb a y; lra.
Qed.

Lemma clamp100_compat (x y : Q) : x == y -> clamp100 x == clamp100 y.
Proof.
  intro E. unfold clamp100, Py.max, Py.min.
  case_ltb x 100; case_ltb y 100; try lra; try reflexivity.
  case_ltb (-100) x; case_ltb (-100) y; lra.
Qed.

Lemma clamp100_odd (x : Q) : clamp100 (- x) == - clamp100 x.
Proof.
  destruct (clamp100_cases x) as (In & Hi & Lo).
  destruct (clamp100_cases (- x)) as (In' & Hi' & Lo').
  destruct (Qlt_le_dec 100 x) as [H | H].
  - rewrite (Hi H), Lo' by lra. reflexivity.
  - destruct (Qlt_le_dec x (-100)) as [L | L].
    + rewrite (Lo L), Hi' by lra. reflexivity.
    + rewrite In, In' by lra. reflexivity.
Qed.

(** X4: for distances that are not negative the steering error of
    APPROACH lies in [[-1, 1]]; it is positive exactly when the right
    distance is the larger, zero for equal distances, and changes sign
    when the two distances are exchanged. *)
Theorem steering_error_normalized (l r : Q) :
  0 <= l -> 0 <= r ->
  -1 <= steering_error l r <= 1
  /\ (l < r <-> 0 < steering_error l r)
  /\ (l == r -> steering_error l r == 0)
  /\ steering_error r l == - steering_error l r.
Proof.
  intros L R. unfold steering_error.
  pose proof (max_floor 1.0 (r + l)) as Floor.
  destruct (max_cases 1.0 (r + l)) as [Small Big].
  assert (Sum : r + l <= Py.max 1.0 (r + l)).
  { destruct (Qlt_le_dec (r + l) 1.0) as [A | A].
    - rewrite Small; lra.
    - rewrite Big; lra. }
  rewrite (max_compat 1.0 (l + r) (r + l)) by ring.
  set (d := Py.max 1.0 (r + l)) in *.
  assert (Pos : 0 < d) by lra.
  assert (Inv : 0 < / d) by (apply Qinv_lt_0_compat; exact Pos).
  assert (One : d * / d == 1) by (apply Qmult_inv_r; lra).
  unfold Qdiv.
  repeat split.
  - nra.
  - nra.
  - intro A. nra.
  - intro A. nra.
  - intro A. nra.
  - ring.
Qed.

Lemma steering_error_normalized_witness :
  0 <= 10 /\ 0 <= 30
  /\ -1 <= steering_error 10 30 <= 1
  /\ (10 < 30 <-> 0 < steering_error 10 30)
  /\ (10 == 30 -> steering_error 10 30 == 0)
  /\ steering_error 30 10 == - steering_error 10 30.
Proof.
  split; [discriminate|]. split; [discriminate|].
  apply (steering_error_normalized 10 30); discriminate.
Defined.

(** X13: a PID built with a negative limit returns the same value,
    [-limit], from every call, whatever the error and its history. *)
Theorem negative_limit_constant (p : PID) (lim now e : Q) :
  limit p = Some lim -> lim < 0 ->
  fst (compute p now e) == - lim.
Proof.
  intros L Neg. cbn [compute fst]. rewrite L. unfold clamp_limit.
  match goal with
  | |- context [Py.ltb lim ?x] => set (raw := x)
  end.
  case_ltb lim raw.
  - case_ltb lim (- lim); lra.
  - case_ltb raw (- lim); lra.
Qed.

Lemma negative_limit_constant_witness :
  limit (PID_init KP KI KD (Some (-5))) = Some (-5)
  /\ -5 < 0
  /\ fst (compute (PID_init KP KI KD (Some (-5))) 100 0) == - (-5).
Proof.
  split; [reflexivity|]. split; [reflexivity|].
  apply (negative_limit_constant (PID_init KP KI KD (Some (-5))) (-5) 100 0);
    reflexivity.
Defined.

(** X15: the drive mixer is mirror symmetric: with the correction negated
    the two wheel commands are exchanged, and with a zero base speed the
    two commands are opposite (a turn on the spot). *)
Theorem drive_mirror (base c : Q) :
  fst (drive_speeds base (- c)) == snd (drive_speeds base c)
  /\ snd (drive_speeds base (- c)) == fst (drive_speeds base c)
  /\ fst (drive_speeds 0 c) == - snd (drive_speeds 0 c).
Proof.
  cbn [drive_speeds fst snd]. split; [|split].
  - apply clamp100_compat. ring.
  - apply clamp100_compat. ring.
  - rewrite (clamp100_compat (0 - c) (- (0 + c))) by ring.
    apply clamp100_odd.
Qed.

(** ** What the loop keeps true *)

Lemma reset_configured (p : PID) : configured p -> configured (reset p).
Proof. intro C. exact C. Qed.

Lemma compute_configured (p : PID) (now e : Q) :
  configured p -> configured (snd (compute p now e)).
Proof. intro C. exact C. Qed.

Lemma control_keeps_invariant (env : Env) (m : Machine) (r : Result Flow) (m' : Machine) :
  loop_invariant m -> iter_control env m = (r, m') -> loop_invariant m'.
Proof.
  unfold loop_invariant. intros (C & NR & PS).
  assert (Done : forall (s : State) (p : PID) (t : option Q),
            configured p -> s <> RECOVER ->
            (s = PUSH -> exists x : Q, t = Some x) ->
            configured p /\ s <> RECOVER /\ (s = PUSH -> exists x : Q, t = Some x)).
  { intros s p t A B D. split; [exact A | split; [exact B | exact D]]. }
  unfold iter_control. destruct (edge_detected env).
  - unfold edge_recovery. run. intro H. conclude H.
    apply Done; [exact C | exact NR | exact PS].
  - run. destruct (state m) eqn:S.
    + unfold search_step. destruct (search_detects _ _); run;
        intro H; conclude H; apply Done;
        solve [exact C | discriminate | congruence].
    + unfold lockon_step. destruct (both _ _) as [[l r']|].
      * destruct (Py.ltb (Qabs (l - r')) 2.0); [|destruct (Py.ltb l r')];
          run; intro H; conclude H; apply Done;
          solve [exact C | discriminate | congruence].
      * run. intro H. conclude H. apply Done;
          solve [exact C | discriminate].
    + unfold approach_step. destruct (both _ _) as [[l r']|].
      * run. cbv [compute]. run.
        destruct (Py.and_then _ _); run; intro H; conclude H; apply Done;
          try solve [exact C | discriminate | congruence].
        intros _. eexists. reflexivity.
      * run. intro H. conclude H. apply Done;
          solve [exact C | discriminate].
    + unfold push_step. run.
      destruct (Py.and_then _ _); run; intro H; conclude H; apply Done;
        try solve [exact C | discriminate | congruence].
      intros _. apply PS. reflexivity.
    + contradiction.
Qed.

Lemma reachable_invariant (m : Machine) : reachable m -> loop_invariant m.
Proof.
  induction 1 as [file | env m flow m' _ IH Step | env v m m' _ IH Step].
  - repeat split; discriminate.
  - exact (control_keeps_invariant env m (Ok flow) m' IH Step).
  - rewrite log_raises in Step. discriminate Step.
Qed.

(** X6: throughout a run the PID keeps the gains and the limit it was
    built with (1.2, 0.01, 0.08 and 40): neither [reset] nor [compute]
    nor the loop writes them. *)
Theorem gains_never_change (m : Machine) :
  reachable m -> configured (pid m).
Proof. intro R. exact (proj1 (reachable_invariant m R)). Qed.

Lemma machine_locked_reachable : reachable machine_locked.
Proof.
  apply (reach_control env_ahead (main_loop_start None) Continue).
  - apply reach_start.
  - reflexivity.
Qed.

Lemma machine_approaching_reachable : reachable machine_approaching.
Proof.
  apply (reach_control env_ahead machine_locked (Proceed (locals_of env_ahead))).
  - apply machine_locked_reachable.
  - reflexivity.
Qed.

Lemma gains_never_change_witness :
  reachable machine_approaching /\ configured (pid machine_approaching).
Proof.
  split; [apply machine_approaching_reachable|].
  apply (gains_never_change machine_approaching).
  apply machine_approaching_reachable.
Defined.

Lemma machine_pushed_reachable : reachable machine_pushed.
Proof.
  unfold machine_pushed.
  destruct (iter_control env_pushing_late machine_approaching)
    as [[flow | e] m'] eqn:E.
  - apply (reach_control env_pushing_late machine_approaching flow m').
    + apply machine_approaching_reachable.
    + exact E.
  - vm_compute in E. discriminate E.
Qed.

(** X8: whenever the loop is in PUSH a push start time is recorded: PUSH
    is entered only together with the assignment of [push_start], and
    nothing sets it back to [None]. *)
Theorem push_has_start_time (m : Machine) :
  reachable m -> state m = PUSH -> exists t : Q, push_start m = Some t.
Proof. intro R. exact (proj2 (proj2 (reachable_invariant m R))). Qed.

Lemma push_has_start_time_witness :
  reachable machine_pushed /\ state machine_pushed = PUSH
  /\ exists t : Q, push_start machine_pushed = Some t.
Proof.
  split; [apply machine_pushed_reachable|].
  split; [reflexivity|].
  apply (push_has_start_time machine_pushed).
  - apply machine_pushed_reachable.
  - reflexivity.
Defined.

(** X9: the loop is never in state RECOVER: the name is defined but no
    branch assigns it. *)
Theorem recover_never_entered (m : Machine) :
  reachable m -> state m <> RECOVER.
Proof. intro R. exact (proj1 (proj2 (reachable_invariant m R))). Qed.

Lemma recover_never_entered_witness :
  reachable machine_approaching /\ state machine_approaching <> RECOVER.
Proof.
  split; [apply machine_approaching_reachable|].
  apply (recover_never_entered machine_approaching).
  apply machine_approaching_reachable.
Defined.

(** ** What reaches the motors *)

Lemma rotation_in_range (l r : Q) :
  (-100 <= fst (edge_rotation l r) <= 100)
  /\ (-100 <= snd (edge_rotation l r) <= 100).
Proof.
  unfold edge_rotation. destruct (Py.ltb r l); cbn [fst snd]; lra.
Qed.

Ltac in_range :=
  repeat match goal with
         | |- Forall _ [] => constructor
         | |- Forall _ (_ :: _) => constructor
         | |- speeds_in_range _ => cbn [speeds_in_range drive_speeds fst snd]
         | |- True => exact I
         | |- (_ <= fst (edge_rotation _ _) <= _) /\ _ => apply rotation_in_range
         | |- _ /\ _ => split
         | |- _ <= clamp100 _ => apply clamp100_range
         | |- clamp100 _ <= _ => apply clamp100_range
         | |- _ <= _ =>
             cbv [BASE_SPEED_SEARCH BASE_SPEED_APPROACH BASE_SPEED_PUSH]; lra
         end.

Ltac appended :=
  first [ exists []; split; [symmetry; apply app_nil_r | constructor]
        | rewrite <- ?app_assoc; eexists; split; [reflexivity | cbn [app]; in_range] ].

Lemma control_sends_within_range (env : Env) (m : Machine) (r : Result Flow) (m' : Machine) :
  iter_control env m = (r, m') ->
  exists acts : list Action,
    actions m' = actions m ++ acts /\ Forall speeds_in_range acts.
Proof.
  unfold iter_control. destruct (edge_detected env).
  - unfold edge_recovery. run. intro H. conclude H. appended.
  - run. destruct (state m).
    + unfold search_step. destruct (search_detects _ _); run;
        intro H; conclude H; appended.
    + unfold lockon_step. destruct (both _ _) as [[l r']|].
      * destruct (Py.ltb (Qabs (l - r')) 2.0); [|destruct (Py.ltb l r')];
          run; intro H; conclude H; appended.
      * run. intro H. conclude H. appended.
    + unfold approach_step. destruct (both _ _) as [[l r']|].
      * run. destruct (compute _ _ _) as [out p]. run.
        destruct (Py.and_then _ _); run; intro H; conclude H; appended.
      * run. intro H. conclude H. appended.
    + unfold push_step. run.
      destruct (Py.and_then _ _); run; intro H; conclude H; appended.
    + intro H. conclude H. appended.
Qed.

(** X10: whatever the sensors read and whatever state the loop is in, an
    iteration only appends to the commands already sent, and every motor
    command it sends has both speeds within [[-100, 100]]. *)
Theorem commands_in_range (env : Env) (m : Machine) :
  exists acts : list Action,
    actions (snd (main_loop_iter env m)) = actions m ++ acts
    /\ Forall speeds_in_range acts.
Proof.
  unfold main_loop_iter, bind.
  destruct (iter_control env m) as [[[| v] | e] m1] eqn:Ctl;
    try rewrite log_raises; cbn [snd ret];
    exact (control_sends_within_range env m _ m1 Ctl).
Qed.

(** ** Steering in APPROACH *)

Lemma steering_error_bounds (l r : Q) :
  0 <= l -> 0 <= r ->
  -1 <= steering_error l r <= 1
  /\ (l < r -> 0 < steering_error l r)
  /\ (r < l -> steering_error l r < 0)
  /\ (l == r -> steering_error l r == 0).
Proof.
  intros L R. unfold steering_error.
  pose proof (max_floor 1.0 (r + l)) as Floor.
  destruct (max_cases 1.0 (r + l)) as [Small Big].
  assert (Sum : r + l <= Py.max 1.0 (r + l)).
  { destruct (Qlt_le_dec (r + l) 1.0) as [A | A].
    - rewrite Small; lra.
    - rewrite Big; lra. }
  set (d := Py.max 1.0 (r + l)) in *.
  assert (Pos : 0 < d) by lra.
  assert (Inv : 0 < / d) by (apply Qinv_lt_0_compat; exact Pos).
  assert (One : d * / d == 1) by (apply Qmult_inv_r; lra).
  unfold Qdiv.
  split; [split; nra|].
  split; [intro A; nra|].
  split; intro A; nra.
Qed.

(** The command APPROACH sends when both distances are read, and the PID
    it leaves behind. *)
Lemma approach_drive (env : Env) (m : Machine) (l d : Q)
      (r : Result Flow) (m' : Machine) :
  edge_detected env = false -> state m = APPROACH ->
  both (us_left env) (us_right env) = Some (l, d) ->
  iter_control env m = (r, m') ->
  exists rest : list Action,
    actions m'
    = actions m
      ++ TankOn
           (clamp100 (BASE_SPEED_APPROACH
                      - fst (compute (pid m) (time_compute env) (steering_error l d))))
           (clamp100 (BASE_SPEED_APPROACH
                      + fst (compute (pid m) (time_compute env) (steering_error l d))))
         :: rest.
Proof.
  intros E S B. unfold iter_control. rewrite E. run. rewrite S.
  unfold approach_step. cbn [us_l us_r us_center]. rewrite B. run.
  destruct (compute (pid m) (time_compute env) (steering_error l d)) as [out p].
  cbn [drive_speeds fst snd]. run.
  destruct (Py.and_then _ _); run; intro H; conclude H;
    rewrite <- ?app_assoc; eexists; reflexivity.
Qed.

(** X5: in APPROACH with both distances read, the loop sends one drive
    command whose two speeds add up to 60 and lie in [[-10, 70]]: the PID
    limit of 40 around the base speed 30 keeps the mixer's clamp at 100
    from ever acting, whatever the distances and the PID history. *)
Theorem approach_never_saturates (env : Env) (m : Machine) (l d : Q) :
  reachable m ->
  edge_detected env = false -> state m = APPROACH ->
  both (us_left env) (us_right env) = Some (l, d) ->
  exists (a b : Q) (rest : list Action),
    actions (snd (iter_control env m)) = actions m ++ TankOn a b :: rest
    /\ a + b == 60
    /\ -10 <= a <= 70
    /\ -10 <= b <= 70.
Proof.
  intros R E S B.
  destruct (iter_control env m) as [r m'] eqn:Ctl.
  destruct (approach_drive env m l d r m' E S B Ctl) as [rest Acts].
  pose proof (proj1 (reachable_invariant m R)) as (_ & _ & _ & Lim).
  pose proof (compute_output_in_limit (pid m) PID_LIMIT (time_compute env)
                (steering_error l d) Lim) as Out.
  set (out := fst (compute (pid m) (time_compute env) (steering_error l d))) in *.
  assert (Bound : -40 <= out <= 40).
  { unfold PID_LIMIT in Out. assert (P : 0 <= 40) by discriminate.
    specialize (Out P). lra. }
  clear Out.
  exists (clamp100 (BASE_SPEED_APPROACH - out)),
         (clamp100 (BASE_SPEED_APPROACH + out)), rest.
  split; [exact Acts|].
  unfold BASE_SPEED_APPROACH.
  rewrite (proj1 (clamp100_cases (30 - out))) by lra.
  rewrite (proj1 (clamp100_cases (30 + out))) by lra.
  repeat split; lra.
Qed.

Lemma approach_never_saturates_witness :
  reachable machine_approaching
  /\ edge_detected env_right_closer = false
  /\ state machine_approaching = APPROACH
  /\ both (us_left env_right_closer) (us_right env_right_closer) = Some (30, 10)
  /\ exists (a b : Q) (rest : list Action),
       actions (snd (iter_control env_right_closer machine_approaching))
       = actions machine_approaching ++ TankOn a b :: rest
       /\ a + b == 60
       /\ -10 <= a <= 70
       /\ -10 <= b <= 70.
Proof.
  split; [apply machine_approaching_reachable|].
  split; [reflexivity|]. split; [reflexivity|]. split; [reflexivity|].
  apply (approach_never_saturates env_right_closer machine_approaching 30 10).
  - apply machine_approaching_reachable.
  - reflexivity.
  - reflexivity.
  - reflexivity.
Defined.

(** The first call after a reset, with the module's gains: the time step
    is 0.01, so the output is [(KP + KI * 0.01 + KD / 0.01) * error]. *)
Lemma first_compute (p : PID) (now e : Q) :
  is_reset p -> configured p -> -1 <= e <= 1 ->
  fst (compute p now e) == 9.2001 * e.
Proof.
  intros (I & P & T) (Kp & Ki & Kd & L) E.
  cbn [compute fst]. unfold compute_dt.
  rewrite I, P, T, Kp, Ki, Kd, L.
  change (Py.ltb 0 0.01) with true. cbv iota.
  unfold KP, KI, KD, PID_LIMIT.
  assert (Raw : 1.2 * e + 0.01 * (0 + e * 0.01) + 0.08 * ((e - 0) / 0.01)
                == 9.2001 * e) by (field).
  rewrite (clamp_limit_compat (Some 40) _ _ Raw).
  unfold clamp_limit.
  case_ltb 40 (9.2001 * e); [lra|].
  case_ltb (9.2001 * e) (- (40)); [lra|reflexivity].
Qed.

(** X14: the first APPROACH iteration after the lock, on a freshly reset
    PID, drives the wheels at [30 - 9.2001 e] and [30 + 9.2001 e] for the
    steering error [e]: the left wheel is the slower one exactly when the
    left distance is the smaller, and both run at 30 for equal distances. *)
Theorem first_approach_steers (env : Env) (m : Machine) (l d : Q) :
  reachable m -> is_reset (pid m) ->
  edge_detected env = false -> state m = APPROACH ->
  both (us_left env) (us_right env) = Some (l, d) ->
  0 <= l -> 0 <= d ->
  exists (a b : Q) (rest : list Action),
    actions (snd (iter_control env m)) = actions m ++ TankOn a b :: rest
    /\ a == 30 - 9.2001 * steering_error l d
    /\ b == 30 + 9.2001 * steering_error l d
    /\ (l < d -> a < b)
    /\ (d < l -> b < a)
    /\ (l == d -> a == b).
Proof.
  intros R Fresh E S B L D.
  destruct (iter_control env m) as [r m'] eqn:Ctl.
  destruct (approach_drive env m l d r m' E S B Ctl) as [rest Acts].
  pose proof (proj1 (reachable_invariant m R)) as Conf.
  destruct (steering_error_bounds l d L D) as (Range & Pos & Neg & Zero).
  pose proof (first_compute (pid m) (time_compute env) (steering_error l d)
                Fresh Conf Range) as Out.
  set (e := steering_error l d) in *.
  set (out := fst (compute (pid m) (time_compute env) e)) in *.
  exists (clamp100 (BASE_SPEED_APPROACH - out)),
         (clamp100 (BASE_SPEED_APPROACH + out)), rest.
  split; [exact Acts|].
  unfold BASE_SPEED_APPROACH.
  rewrite (proj1 (clamp100_cases (30 - out))) by lra.
  rewrite (proj1 (clamp100_cases (30 + out))) by lra.
  split; [lra|]. split; [lra|].
  split; [intro A; specialize (Pos A); lra|].
  split; [intro A; specialize (Neg A); lra|].
  intro A. specialize (Zero A). lra.
Qed.

Lemma first_approach_steers_witness :
  reachable machine_approaching /\ is_reset (pid machine_approaching)
  /\ edge_detected env_right_closer = false
  /\ state machine_approaching = APPROACH
  /\ both (us_left env_right_closer) (us_right env_right_closer) = Some (30, 10)
  /\ 0 <= 30 /\ 0 <= 10
  /\ exists (a b : Q) (rest : list Action),
       actions (snd (iter_control env_right_closer machine_approaching))
       = actions machine_approaching ++ TankOn a b :: rest
       /\ a == 30 - 9.2001 * steering_error 30 10
       /\ b == 30 + 9.2001 * steering_error 30 10
       /\ (30 < 10 -> a < b)
       /\ (10 < 30 -> b < a)
       /\ (30 == 10 -> a == b).
Proof.
  split; [apply machine_approaching_reachable|].
  split; [repeat split|].
  split; [reflexivity|]. split; [reflexivity|]. split; [reflexivity|].
  split; [discriminate|]. split; [discriminate|].
  apply (first_approach_steers env_right_closer machine_approaching 30 10).
  - apply machine_approaching_reachable.
  - repeat split.
  - reflexivity.
  - reflexivity.
  - reflexivity.
  - discriminate.
  - discriminate.
Defined.

(** ** The log file *)

Lemma file_after_app (file : option (list CsvLine)) (xs ys : list Row) :
  file_after (file_after file xs) ys = file_after file (xs ++ ys).
Proof.
  destruct xs as [| x xs]; [reflexivity|].
  destruct ys as [| y ys].
  - rewrite app_nil_r. reflexivity.
  - cbn [file_after app]. f_equal.
    change (x :: xs ++ y :: ys) with ((x :: xs) ++ y :: ys).
    rewrite map_app, app_assoc. reflexivity.
Qed.

Lemma log_row_appends (env : Env) (row : Row) (m : Machine) :
  exists m' : Machine,
    log_row env row m = (Ok tt, m')
    /\ state m' = state m /\ pid m' = pid m /\ push_start m' = push_start m
    /\ log_file m'
       = file_after (log_file m) (if log_open_fails env then [] else [row]).
Proof.
  unfold log_row. run.
  destruct (log_open_fails env); destruct (log_file m) as [lines|] eqn:F; run;
    eexists; (split; [reflexivity|]); cbn [state pid push_start log_file];
    repeat split; try assumption; reflexivity.
Qed.

(** X11: a sequence of calls to [log_row] never raises and leaves the
    state, the PID and the push timer alone.  The file ends up holding
    what it held, followed by the rows of the calls whose [open]
    succeeded, in order; a file that did not exist gets the header line
    once, before its first row, and stays absent while every call fails. *)
Theorem log_rows_append (calls : list (Env * Row)) (m : Machine) :
  exists m' : Machine,
    log_rows calls m = (Ok tt, m')
    /\ state m' = state m /\ pid m' = pid m /\ push_start m' = push_start m
    /\ log_file m' = file_after (log_file m) (written calls).
Proof.
  revert m. induction calls as [| [env row] rest IH]; intro m.
  - exists m. repeat split.
  - destruct (log_row_appends env row m) as (m1 & Run & S & P & T & F).
    destruct (IH m1) as (m2 & Run' & S' & P' & T' & F').
    exists m2. cbn [log_rows]. unfold bind at 1. rewrite Run.
    split; [exact Run'|].
    split; [congruence|]. split; [congruence|]. split; [congruence|].
    rewrite F', F, file_after_app. f_equal.
    unfold written. cbn [filter fst snd].
    destruct (log_open_fails env); reflexivity.
Qed.

(** ** How far a run gets *)

Lemma control_early (env : Env) (m : Machine) (r : Result Flow) (m' : Machine) :
  state m = SEARCH \/ state m = LOCKON -> push_start m = None ->
  iter_control env m = (r, m') ->
  state m' <> PUSH /\ push_start m' = None
  /\ (r = Ok Continue ->
      (state m' = SEARCH \/ state m' = LOCKON) /\ is_reset (pid m')).
Proof.
  intros Early NoPush.
  unfold iter_control. destruct (edge_detected env).
  - unfold edge_recovery. run. intro H. conclude H.
    split; [destruct Early; congruence|]. split; [exact NoPush|].
    discriminate.
  - run. destruct (state m) eqn:S.
    + unfold search_step. destruct (search_detects _ _); run;
        intro H; conclude H.
      * split; [discriminate|]. split; [exact NoPush|].
        intros _. split; [right; reflexivity | apply reset_is_reset].
      * split; [congruence|]. split; [exact NoPush|]. discriminate.
    + unfold lockon_step. destruct (both _ _) as [[l r']|].
      * destruct (Py.ltb (Qabs (l - r')) 2.0); [|destruct (Py.ltb l r')];
          run; intro H; conclude H;
          (split; [congruence|]); (split; [exact NoPush|]); discriminate.
      * run. intro H. conclude H.
        split; [discriminate|]. split; [exact NoPush|]. discriminate.
    + destruct Early; discriminate.
    + destruct Early; discriminate.
    + destruct Early; discriminate.
Qed.

Lemma iteration_early (env : Env) (m : Machine) (r : Result unit) (m' : Machine) :
  state m = SEARCH \/ state m = LOCKON -> push_start m = None ->
  main_loop_iter env m = (r, m') ->
  state m' <> PUSH /\ push_start m' = None /\ log_file m' = log_file m
  /\ (r = Ok tt ->
      (state m' = SEARCH \/ state m' = LOCKON) /\ is_reset (pid m')).
Proof.
  intros Early NoPush. unfold main_loop_iter, bind.
  destruct (iter_control env m) as [[[| v] | e] m1] eqn:Ctl;
    try rewrite log_raises; intro H; injection H as <- <-;
    destruct (control_early env m _ m1 Early NoPush Ctl) as (A & B & C);
    pose proof (control_keeps_log_file env m _ m1 Ctl) as F.
  - split; [exact A|]. split; [exact B|]. split; [exact F|].
    intros _. apply C. reflexivity.
  - split; [exact A|]. split; [exact B|]. split; [exact F|]. discriminate.
  - split; [exact A|]. split; [exact B|]. split; [exact F|]. discriminate.
Qed.

Lemma iterate_early (envs : list Env) (m : Machine) (r : Result unit) (m' : Machine) :
  state m = SEARCH \/ state m = LOCKON -> is_reset (pid m) ->
  push_start m = None ->
  iterate envs m = (r, m') ->
  state m' <> PUSH /\ push_start m' = None /\ log_file m' = log_file m
  /\ (r = Ok tt ->
      (state m' = SEARCH \/ state m' = LOCKON) /\ is_reset (pid m')).
Proof.
  revert m. induction envs as [| env rest IH]; intros m Early Fresh NoPush Run.
  - injection Run as <- <-.
    split; [destruct Early; congruence|]. split; [exact NoPush|].
    split; [reflexivity|]. intros _. split; assumption.
  - cbn [iterate] in Run. unfold bind at 1 in Run.
    destruct (main_loop_iter env m) as [[[] | e] m1] eqn:Iter.
    + destruct (iteration_early env m _ m1 Early NoPush Iter) as (_ & B & F & C).
      destruct (C eq_refl) as [Early1 Fresh1].
      destruct (IH m1 Early1 Fresh1 B Run) as (A' & B' & F' & C').
      split; [exact A'|]. split; [exact B'|].
      split; [congruence | exact C'].
    + injection Run as <- <-.
      destruct (iteration_early env m _ m1 Early NoPush Iter) as (A & B & F & C).
      split; [exact A|]. split; [exact B|]. split; [exact F | discriminate].
Qed.

(** The control part ends by [continue] only where SEARCH detects the
    opponent. *)
Lemma control_continue (env : Env) (m m' : Machine) :
  iter_control env m = (Ok Continue, m') ->
  state m = SEARCH /\ edge_detected env = false
  /\ search_detects (us_left env) (us_right env) = true
  /\ state m' = LOCKON.
Proof.
  unfold iter_control. destruct (edge_detected env).
  - unfold edge_recovery. run. discriminate.
  - run. destruct (state m) eqn:S.
    + unfold search_step. cbn [us_l us_r].
      destruct (search_detects _ _); run; intro H.
      * injection H as <-. cbn [state]. repeat split.
      * discriminate H.
    + unfold lockon_step. destruct (both _ _) as [[l r']|].
      * destruct (Py.ltb (Qabs (l - r')) 2.0); [|destruct (Py.ltb l r')];
          run; discriminate.
      * run. discriminate.
    + unfold approach_step. destruct (both _ _) as [[l r']|].
      * run. destruct (compute _ _ _) as [out p]. run.
        destruct (Py.and_then _ _); run; discriminate.
      * run. discriminate.
    + unfold push_step. run.
      destruct (Py.and_then _ _); run; discriminate.
    + discriminate.
Qed.

(** An iteration completes only where SEARCH detects the opponent: every
    other one raises, in [reverse()] or at the timestamp. *)
Lemma iteration_completes (env : Env) (m m' : Machine) :
  main_loop_iter env m = (Ok tt, m') ->
  state m = SEARCH /\ edge_detected env = false
  /\ search_detects (us_left env) (us_right env) = true
  /\ state m' = LOCKON.
Proof.
  unfold main_loop_iter, bind.
  destruct (iter_control env m) as [[[| v] | e] m1] eqn:Ctl.
  - intro H. injection H as <-. exact (control_continue env m m1 Ctl).
  - rewrite log_raises. discriminate.
  - discriminate.
Qed.

Lemma iterate_completes (envs : list Env) (m m' : Machine) :
  iterate envs m = (Ok tt, m') ->
  (envs = [] /\ m' = m)
  \/ exists env : Env,
       envs = [env] /\ state m = SEARCH /\ edge_detected env = false
       /\ search_detects (us_left env) (us_right env) = true
       /\ state m' = LOCKON.
Proof.
  destruct envs as [| env rest]; cbn [iterate].
  - intro H. injection H as <-. left. split; reflexivity.
  - unfold bind at 1.
    destruct (main_loop_iter env m) as [[[] | e] m1] eqn:Iter; [|discriminate].
    destruct (iteration_completes env m m1 Iter) as (S & E & D & S1).
    destruct rest as [| env2 rest2]; cbn [iterate]; [|unfold bind at 1].
    + intro H. injection H as <-. right. exists env. repeat split; assumption.
    + destruct (main_loop_iter env2 m1) as [[[] | e] m2] eqn:Iter2;
        [|discriminate].
      destruct (iteration_completes env2 m1 m2 Iter2) as (S2 & _).
      congruence.
Qed.

(** X12: however long it runs and whatever the sensors read, the loop
    never enters PUSH and never writes to the log file, be it at the
    point where it fails or after its last complete iteration.  A run
    completes at most one iteration: if no iteration has failed, either
    none has run and the state is SEARCH, or exactly one has run, with no
    edge and an opponent in detection range, and the state is LOCKON; the
    PID holds no history then.  Every other iteration raises. *)
Theorem run_never_pushes (file : option (list CsvLine)) (envs : list Env) :
  state (snd (main_loop file envs)) <> PUSH
  /\ push_start (snd (main_loop file envs)) = None
  /\ log_file (snd (main_loop file envs)) = file
  /\ (fst (main_loop file envs) = Ok tt ->
      is_reset (pid (snd (main_loop file envs)))
      /\ ((envs = [] /\ state (snd (main_loop file envs)) = SEARCH)
          \/ exists env : Env,
               envs = [env] /\ edge_detected env = false
               /\ (in_detection_range (us_left env)
                   \/ in_detection_range (us_right env))
               /\ state (snd (main_loop file envs)) = LOCKON)).
Proof.
  unfold main_loop.
  destruct (iterate envs (main_loop_start file)) as [r m] eqn:Run.
  cbn [fst snd].
  destruct (iterate_early envs (main_loop_start file) r m) as (A & B & F & C);
    [left; reflexivity | apply reset_is_reset | reflexivity | exact Run |].
  split; [exact A|]. split; [exact B|]. split; [exact F|].
  intro Done. subst r. split; [apply C; reflexivity|].
  destruct (iterate_completes envs (main_loop_start file) m Run)
    as [[Nil Same] | (env & One & _ & E & D & S)].
  - left. split; [exact Nil|]. rewrite Same. reflexivity.
  - right. exists env. split; [exact One|]. split; [exact E|].
    split; [apply search_detects_iff, D | exact S].
Qed.

Lemma run_never_pushes_witness :
  fst (main_loop None [env_ahead]) = Ok tt
  /\ is_reset (pid (snd (main_loop None [env_ahead])))
  /\ (([env_ahead] = [] /\ state (snd (main_loop None [env_ahead])) = SEARCH)
      \/ exists env : Env,
           [env_ahead] = [env] /\ edge_detected env = false
           /\ (in_detection_range (us_left env)
               \/ in_detection_range (us_right env))
           /\ state (snd (main_loop None [env_ahead])) = LOCKON).
Proof.
  split; [reflexivity|].
  apply (proj2 (proj2 (proj2 (run_never_pushes None [env_ahead])))).
  reflexivity.
Defined.
